(** * Text summarizer and translator: the orchestration script

    A shallow embedding of [text_summarizer_app.py].  The script is glue
    code: it validates the input, calls a metrics function, a translation
    service and a pretrained summarization pipeline in sequence inside one
    [try]/[except], and renders the results.

    Python strings are lists of Unicode code points, [bytes] are lists of
    octets.  The third-party libraries are parameters of the development
    (the class [Libraries]); every theorem holds for arbitrary behaviour of
    these collaborators.  The script's effects are written in a small state
    and exception monad: the state carries the outside world and the
    [st.cache_resource] cache, and every command returns the events it
    produced (adapter calls, their outcomes, output elements).

    A Python [float] is the rational it denotes, and an operation on
    floats is the exact operation followed by the rounding of IEEE 754
    binary64. *)

From Stdlib Require Import List ZArith NArith QArith Qround Qpower Qabs.
From Stdlib Require Import Bool Lia Lqa String Ascii SpecFloat.
Import ListNotations.

Set Implicit Arguments.
Local Open Scope list_scope.

(** ** Python strings *)

(** A code point. *)
Definition char := N.

(** A Python [str]. *)
Definition text := list char.

(** A Python [bytes] object; every element is below 256 in well-formed
    values. *)
Definition bytes := list N.

(** The code points of an ASCII literal. *)
Fixpoint lit (s : string) : text :=
  match s with
  | EmptyString => []
  | String a s' => N_of_ascii a :: lit s'
  end.

Definition text_eqb (a b : text) : bool :=
  if list_eq_dec N.eq_dec a b then true else false.

(** [str.isspace] for one character, as CPython's [_PyUnicode_IsWhitespace]
    decides it; [str.strip()] and [str.split()] without arguments both use
    this test. *)
Definition is_space (c : char) : bool :=
  ((9 <=? c) && (c <=? 13) ||
   (28 <=? c) && (c <=? 32) ||
   (c =? 133) || (c =? 160) || (c =? 5760) ||
   (8192 <=? c) && (c <=? 8202) ||
   (c =? 8232) || (c =? 8233) || (c =? 8239) || (c =? 8287) ||
   (c =? 12288))%N.

(** [str.lstrip()]: skip the leading whitespace. *)
Fixpoint lstrip (t : text) : text :=
  match t with
  | [] => []
  | c :: t' => if is_space c then lstrip t' else t
  end.

(** [str.rstrip()]: the same scan from the right end. *)
Definition rstrip (t : text) : text := rev (lstrip (rev t)).

(** [str.strip()]. *)
Definition strip (t : text) : text := rstrip (lstrip t).

(** Truthiness of a [str]: non-empty. *)
Definition truthy (t : text) : bool :=
  match t with [] => false | _ :: _ => true end.

(** [str.split()] with no separator.  CPython scans left to right: it
    skips whitespace, then collects a maximal run of other characters and
    appends it.  [cur] is the run being collected (reversed), [None]
    while skipping. *)
Fixpoint split_scan (cur : option text) (t : text) : list text :=
  match t with
  | [] => match cur with
          | None => []
          | Some w => [rev w]
          end
  | c :: t' =>
      if is_space c then
        match cur with
        | None => split_scan None t'
        | Some w => rev w :: split_scan None t'
        end
      else
        match cur with
        | None => split_scan (Some [c]) t'
        | Some w => split_scan (Some (c :: w)) t'
        end
  end.

Definition split (t : text) : list text := split_scan None t.

(** [sep.join(parts)]. *)
Fixpoint join (sep : text) (parts : list text) : text :=
  match parts with
  | [] => []
  | [p] => p
  | p :: rest => p ++ sep ++ join sep rest
  end.

(** The spec's reading of "splitting on whitespace": the tokens are the
    maximal runs of non-whitespace characters, in order.  Written
    independently of the scanner above, by looking one character ahead. *)
Fixpoint split_on_whitespace (t : text) : list text :=
  match t with
  | [] => []
  | c :: t' =>
      if is_space c then split_on_whitespace t'
      else
        match t' with
        | [] => [[c]]
        | c' :: _ =>
            if is_space c' then [c] :: split_on_whitespace t'
            else
              match split_on_whitespace t' with
              | w :: ws => (c :: w) :: ws
              | [] => [[c]]
              end
        end
  end.

(** The spec's "blank": empty or whitespace only. *)
Definition blank (t : text) : Prop := Forall (fun c => is_space c = true) t.

(** ** Encodings *)

(** A raised Python exception: its class and what [str(e)] gives. *)
Record exn : Type := Exn { exn_class : string; exn_str : text }.

(** The outcome of evaluating a Python expression. *)
Inductive res (A : Type) : Type :=
| Ok (a : A)
| Raise (e : exn).

Arguments Ok {A} a.
Arguments Raise {A} e.

Definition UnicodeDecodeError : exn :=
  Exn "UnicodeDecodeError" (lit "'utf-8' codec can't decode bytes").
Definition UnicodeEncodeError : exn :=
  Exn "UnicodeEncodeError" (lit "'utf-8' codec can't encode character").
Definition IndexError : exn :=
  Exn "IndexError" (lit "list index out of range").
Definition KeyError (k : text) : exn :=
  Exn "KeyError" ([39] ++ k ++ [39])%N.
Definition ZeroDivisionError : exn :=
  Exn "ZeroDivisionError" (lit "division by zero").

(** A continuation octet, 10xxxxxx. *)
Definition is_cont (b : N) : bool := ((128 <=? b) && (b <=? 191))%N.

Definition is_surrogate (c : N) : bool := ((55296 <=? c) && (c <=? 57343))%N.

(** [bytes.decode("utf-8")], strict: overlong forms, surrogates, code
    points above U+10FFFF and truncated sequences raise. *)
Fixpoint utf8_decode (b : bytes) : res text :=
  let cons_ok (c : char) (r : res text) : res text :=
    match r with Ok t => Ok (c :: t) | Raise e => Raise e end in
  match b with
  | [] => Ok []
  | b0 :: r0 =>
      (if b0 <? 128 then cons_ok b0 (utf8_decode r0)
       else if (194 <=? b0) && (b0 <=? 223) then
         match r0 with
         | b1 :: r1 =>
             if is_cont b1
             then cons_ok ((b0 - 192) * 64 + (b1 - 128)) (utf8_decode r1)
             else Raise UnicodeDecodeError
         | _ => Raise UnicodeDecodeError
         end
       else if (224 <=? b0) && (b0 <=? 239) then
         match r0 with
         | b1 :: b2 :: r2 =>
             let c := (b0 - 224) * 4096 + (b1 - 128) * 64 + (b2 - 128) in
             if is_cont b1 && is_cont b2 && (2048 <=? c) && negb (is_surrogate c)
             then cons_ok c (utf8_decode r2)
             else Raise UnicodeDecodeError
         | _ => Raise UnicodeDecodeError
         end
       else if (240 <=? b0) && (b0 <=? 244) then
         match r0 with
         | b1 :: b2 :: b3 :: r3 =>
             let c := (b0 - 240) * 262144 + (b1 - 128) * 4096
                      + (b2 - 128) * 64 + (b3 - 128) in
             if is_cont b1 && is_cont b2 && is_cont b3
                && (65536 <=? c) && (c <=? 1114111)
             then cons_ok c (utf8_decode r3)
             else Raise UnicodeDecodeError
         | _ => Raise UnicodeDecodeError
         end
       else Raise UnicodeDecodeError)%N
  end.

(** [str.encode()]: UTF-8; a lone surrogate cannot be encoded. *)
Fixpoint utf8_encode (t : text) : res bytes :=
  match t with
  | [] => Ok []
  | c :: t' =>
      let unit_ : option bytes :=
        (if c <? 128 then Some [c]
         else if c <? 2048 then Some [192 + c / 64; 128 + c mod 64]
         else if c <? 65536 then
           if is_surrogate c then None
           else Some [224 + c / 4096; 128 + (c / 64) mod 64; 128 + c mod 64]
         else if c <=? 1114111 then
           Some [240 + c / 262144; 128 + (c / 4096) mod 64;
                 128 + (c / 64) mod 64; 128 + c mod 64]
         else None)%N in
      match unit_, utf8_encode t' with
      | Some u, Ok r => Ok (u ++ r)
      | None, _ => Raise UnicodeEncodeError
      | _, Raise e => Raise e
      end
  end.

(** One symbol of the standard base64 alphabet. *)
Definition b64_symbol (n : N) : N :=
  (if n <? 26 then 65 + n
   else if n <? 52 then 97 + (n - 26)
   else if n <? 62 then 48 + (n - 52)
   else if n =? 62 then 43 else 47)%N.

(** [base64.b64encode]. *)
Fixpoint b64encode (b : bytes) : bytes :=
  match b with
  | [] => []
  | [x] => [b64_symbol (x / 4); b64_symbol ((x mod 4) * 16); 61; 61]
  | [x; y] =>
      [b64_symbol (x / 4); b64_symbol ((x mod 4) * 16 + y / 16);
       b64_symbol ((y mod 16) * 4); 61]
  | x :: y :: z :: rest =>
      b64_symbol (x / 4) :: b64_symbol ((x mod 4) * 16 + y / 16)
      :: b64_symbol ((y mod 16) * 4 + z / 64) :: b64_symbol (z mod 64)
      :: b64encode rest
  end%N.

(** [str(n)] for a non-negative [int]. *)
Fixpoint uint_digits (d : Decimal.uint) : text :=
  match d with
  | Decimal.Nil => []
  | Decimal.D0 d => 48 :: uint_digits d
  | Decimal.D1 d => 49 :: uint_digits d
  | Decimal.D2 d => 50 :: uint_digits d
  | Decimal.D3 d => 51 :: uint_digits d
  | Decimal.D4 d => 52 :: uint_digits d
  | Decimal.D5 d => 53 :: uint_digits d
  | Decimal.D6 d => 54 :: uint_digits d
  | Decimal.D7 d => 55 :: uint_digits d
  | Decimal.D8 d => 56 :: uint_digits d
  | Decimal.D9 d => 57 :: uint_digits d
  end%N.

Definition str_of_nat (n : nat) : text := uint_digits (Nat.to_uint n).

(** ** Python floats *)

(** A [float] is an IEEE 754 binary64 number: 53 significant bits.  An
    arithmetic operation returns the exact result rounded to the nearest
    float, a tie going to the float whose last bit is zero.  The script
    divides one word count by another, subtracts the quotient from 1 and
    multiplies by 100; word counts are lengths of lists held in memory,
    so these numbers stay far inside the exponent range of binary64
    (2^-1022 to 2^1024): the exponent is left unbounded, and overflow and
    subnormal numbers are not modelled. *)

Definition pow2 (e : Z) : Q := Qpower 2 e.

(** The integer nearest to [y], ties to the even one. *)
Definition rne (y : Q) : Z :=
  let f := Qfloor y in
  match Qcompare (y - inject_Z f) (1 # 2) with
  | Lt => f
  | Gt => (f + 1)%Z
  | Eq => if Z.even f then f else (f + 1)%Z
  end.

(** The exponent [e] of the last of the 53 bits of a positive [x]:
    2^52 <= x / 2^e < 2^53.  The bit lengths of numerator and
    denominator give it up to one. *)
Definition binade (x : Q) : Z :=
  let e1 := (Z.log2 (Qnum x) - Z.log2 (Z.pos (Qden x)) - 52)%Z in
  if Qle_bool (pow2 52) (x / pow2 e1) then e1 else (e1 - 1)%Z.

(** The float nearest to a positive [x]. *)
Definition round53_pos (x : Q) : Q :=
  let e := binade x in inject_Z (rne (x / pow2 e)) * pow2 e.

(** The float nearest to [x], in lowest terms. *)
Definition round53 (x : Q) : Q :=
  let x' := Qred x in
  match Qcompare x' 0 with
  | Eq => 0
  | Gt => Qred (round53_pos x')
  | Lt => Qred (- round53_pos (- x'))
  end.

(** [a / b] for two [int]s and a non-zero [b]: CPython rounds the exact
    quotient once. *)
Definition int_truediv (a b : Z) : Q := round53 (inject_Z a / inject_Z b).

(** [x - y] and [x * y] for two [float]s; an [int] operand is converted
    first, exactly for the constants 1 and 100. *)
Definition float_sub (x y : Q) : Q := round53 (x - y).
Definition float_mul (x y : Q) : Q := round53 (x * y).

(** The format specification [.1f]: the decimal with one digit after the
    point that is nearest to the float's exact value, ties to the even
    digit, with a minus sign for a negative float. *)
Definition format_1f (x : Q) : text :=
  let n := rne (Qabs x * 10) in
  (if (Qnum x <? 0)%Z then [45%N] else [])
  ++ str_of_nat (Z.to_nat (n / 10)) ++ [46%N] ++ str_of_nat (Z.to_nat (n mod 10)).

(** The same three operations in the Standard Library's specification of
    IEEE 754 arithmetic, at the parameters of binary64, for comparison.
    An [int] is a significand with exponent 0, so the division rounds the
    exact quotient once. *)
Definition SF_of_int (z : Z) : spec_float :=
  match z with
  | Z0 => S754_zero false
  | Z.pos p => S754_finite false p 0
  | Z.neg p => S754_finite true p 0
  end.

Definition SF_const (z : Z) : spec_float := binary_normalize 53 1024 z 0 false.

Definition SF_ratio (s o : Z) : spec_float :=
  SFmul 53 1024
    (SFsub 53 1024 (SF_const 1)
       (SFdiv 53 1024 (SF_of_int s) (SF_of_int o)))
    (SF_const 100).

(** The rational a finite [spec_float] denotes. *)
Definition Q_of_SF (f : spec_float) : option Q :=
  match f with
  | S754_zero _ => Some 0
  | S754_finite sign m e =>
      Some (Qred ((if sign then -1 else 1) * inject_Z (Z.pos m) * pow2 e))
  | _ => None
  end.

(** ** Data model *)

(** The dictionary [get_text_metrics] returns.  Python floats are
    modelled by the rationals they denote. *)
Record metrics : Type := {
  word_count : nat;
  sentence_count : nat;
  flesch_score : Q;
  smog_score : Q;
  language : text
}.

(** A [dict] with [str] keys and values, as the summarization pipeline
    returns them; the first binding of a key is the one looked up. *)
Definition dict := list (text * text).

(** What [st.file_uploader] hands over: the declared MIME type and the
    content that [file.read()] returns. *)
Record uploaded_file : Type := {
  file_type : text;
  file_data : bytes
}.

(** The third-party libraries the script calls.  Network services, the
    model and the language detector (which draws from the interpreter's
    random generator unless a seed is set, and the script sets none) act
    on the outside [world]; the text statistics and the document parsers
    are functions of their argument. *)
Class Libraries : Type := {
  world : Type;
  tokenizer : Type;
  seq2seq_model : Type;
  summarization_pipeline : Type;
  pdf_page : Type;
  docx_paragraph : Type;
  (* transformers *)
  AutoTokenizer_from_pretrained : text -> world -> res tokenizer * world;
  AutoModelForSeq2SeqLM_from_pretrained :
    text -> world -> res seq2seq_model * world;
  pipeline :
    text -> seq2seq_model -> tokenizer -> world ->
    res summarization_pipeline * world;
  pipeline_call :
    summarization_pipeline -> text -> Z -> Z -> bool -> world ->
    res (list dict) * world;
  (* deep_translator: GoogleTranslator(source, target).translate(text) *)
  GoogleTranslator_translate :
    text -> text -> text -> world -> res text * world;
  (* langdetect *)
  detect : text -> world -> res text * world;
  (* textblob, textstat *)
  TextBlob_sentences : text -> res (list text);
  flesch_reading_ease : text -> res Q;
  smog_index : text -> res Q;
  (* fitz: the pages of fitz.open(stream, filetype), page.get_text() *)
  fitz_open : bytes -> text -> res (list pdf_page);
  get_text : pdf_page -> res text;
  (* docx: the paragraphs of docx.Document(file), para.text *)
  docx_Document : bytes -> res (list docx_paragraph);
  paragraph_text : docx_paragraph -> text
}.

(** The three adapters of the pipeline, with their arguments. *)
Inductive call : Type :=
| Cget_text_metrics (t : text)
| Ctranslate_text (t : text) (target_lang : text)
| Csummarizer (t : text) (max_length min_length : Z) (do_sample : bool).

(** What an adapter returned. *)
Inductive value : Type :=
| Vmetrics (m : metrics)
| Vtext (t : text)
| Vsummary (out : list dict).

(** Streamlit output elements. *)
Inductive ui : Type :=
| Title (body : text)
| Success (body : text)
| Warning (body : text)
| Error (body : text)
| Info (body : text)
| Spinner (body : text)
| Columns (n : nat)
| Subheader (body : text)
| Write (body : text)
| Metric (label value : text)
| TextArea (label value : text) (height : nat) (key : text)
| Markdown (body : text) (unsafe_allow_html : bool).

(** What can be observed of a run, in the order it happens. *)
Inductive event : Type :=
| LoadModel
| Call (c : call)
| Return (v : value)
| Raised (e : exn)
| UI (u : ui).

Inductive input_mode : Type := ManualText | UploadDocument.

(** The state of the input widgets when the script runs. *)
Record widgets : Type := {
  w_input_mode : input_mode;
  w_text_area : text;
  w_file_uploader : option uploaded_file;
  w_min_len : Z;
  w_max_len : Z;
  w_target_lang : text;
  w_button : bool
}.

Definition is_adapter_call (e : event) : bool :=
  match e with Call _ => true | _ => false end.

Definition is_load (e : event) : bool :=
  match e with LoadModel => true | _ => false end.

Definition is_ui (e : event) : bool :=
  match e with UI _ => true | _ => false end.

(** The adapter events of a run: calls, returns and raises. *)
Definition is_adapter_event (e : event) : bool :=
  match e with Call _ | Return _ | Raised _ => true | _ => false end.

(** The expression [(1 - (s / o)) * 100] of line 139 on two word counts:
    the division of two [int]s raises for a zero divisor and gives a
    [float] otherwise, and each of the three operations rounds. *)
Definition compression_ratio (summary_wc original_wc : nat) : res Q :=
  match original_wc with
  | O => Raise ZeroDivisionError
  | S _ =>
      Ok (float_mul
            (float_sub 1 (int_truediv (Z.of_nat summary_wc) (Z.of_nat original_wc)))
            100)
  end.

(** The same expression in exact arithmetic, as the spec writes it. *)
Definition exact_ratio (summary_wc original_wc : nat) : Q :=
  (1 - inject_Z (Z.of_nat summary_wc) / inject_Z (Z.of_nat original_wc)) * 100.

(** [d[k]]. *)
Fixpoint getitem (d : dict) (k : text) : res text :=
  match d with
  | [] => Raise (KeyError k)
  | (k', v) :: d' => if text_eqb k' k then Ok v else getitem d' k
  end.

(** [l[0]]. *)
Definition first_item (A : Type) (l : list A) : res A :=
  match l with
  | [] => Raise IndexError
  | x :: _ => Ok x
  end.

(** [[f(x) for x in l]] for a fallible [f]: the first exception ends the
    comprehension. *)
Fixpoint map_res (A B : Type) (f : A -> res B) (l : list A) : res (list B) :=
  match l with
  | [] => Ok []
  | x :: l' =>
      match f x with
      | Raise e => Raise e
      | Ok y =>
          match map_res f l' with
          | Raise e => Raise e
          | Ok ys => Ok (y :: ys)
          end
      end
  end.

(** The nested function [get_download_link] of the handler. *)
Definition get_download_link (t filename : text) : res text :=
  match utf8_encode t with
  | Raise e => Raise e
  | Ok raw =>
      match utf8_decode (b64encode raw) with
      | Raise e => Raise e
      | Ok b64 =>
          Ok (lit "<a href=" ++ [34%N] ++ lit "data:file/txt;base64," ++ b64
              ++ [34%N] ++ lit " download=" ++ [34%N] ++ filename ++ [34%N]
              ++ lit ">" ++ [128190%N] ++ lit " Download Summary</a>")
      end
  end.

(** ** The script *)

Module Script.
Section WithLibraries.

Context {L : Libraries}.

(** What outlives one run of the script: the outside world and the
    [st.cache_resource] entry of [load_summarizer] ([None]: not yet
    called; [Some None]: called, returned [None]). *)
Record store : Type := {
  the_world : world;
  model_cache : option (option summarization_pipeline)
}.

(** A command: from a store to an outcome, the next store and the events
    it produced, oldest first. *)
Definition M (A : Type) : Type := store -> res A * store * list event.

Definition ret (A : Type) (a : A) : M A := fun s => (Ok a, s, []).

Definition bind (A B : Type) (m : M A) (k : A -> M B) : M B :=
  fun s =>
    match m s with
    | (Ok a, s1, l1) =>
        match k a s1 with
        | (r, s2, l2) => (r, s2, l1 ++ l2)
        end
    | (Raise e, s1, l1) => (Raise e, s1, l1)
    end.

Notation "x <- m ;; k" := (bind m (fun x => k))
  (at level 61, m at next level, right associativity).
Notation "m ;;; k" := (bind m (fun _ => k))
  (at level 61, right associativity).

Definition emit (e : event) : M unit := fun s => (Ok tt, s, [e]).

(** A library function without effects. *)
Definition pure_call (A : Type) (r : res A) : M A := fun s => (r, s, []).

(** A library function that acts on the world. *)
Definition world_call (A : Type) (f : world -> res A * world) : M A :=
  fun s =>
    match f (the_world s) with
    | (r, w) => (r, {| the_world := w; model_cache := model_cache s |}, [])
    end.

(** [try: body except Exception as e: handler(e)]. *)
Definition try_except (A : Type) (body : M A) (handler : exn -> M A) : M A :=
  fun s =>
    match body s with
    | (Ok a, s1, l1) => (Ok a, s1, l1)
    | (Raise e, s1, l1) =>
        match handler e s1 with
        | (r, s2, l2) => (r, s2, l1 ++ l2)
        end
    end.

(** An adapter call, recorded with how it ended. *)
Definition traced (A : Type) (c : call) (inj : A -> value) (body : M A) : M A :=
  fun s =>
    match body s with
    | (Ok a, s1, l1) => (Ok a, s1, Call c :: l1 ++ [Return (inj a)])
    | (Raise e, s1, l1) => (Raise e, s1, Call c :: l1 ++ [Raised e])
    end.

(** The body of [load_summarizer] (lines 40-48). *)
Definition load_summarizer_body : M (option summarization_pipeline) :=
  try_except
    (let model_name := lit "sshleifer/distilbart-cnn-12-6" in
     tok <- world_call (AutoTokenizer_from_pretrained model_name) ;;
     model <- world_call (AutoModelForSeq2SeqLM_from_pretrained model_name) ;;
     p <- world_call (pipeline (lit "summarization") model tok) ;;
     ret (Some p))
    (fun e =>
       emit (UI (Error (lit "Error loading the model: " ++ exn_str e))) ;;;
       emit (UI (Info (lit "Please make sure you have a stable internet connection and try again."))) ;;;
       ret None).

(** [load_summarizer] under [@st.cache_resource]: the body runs when the
    cache has no entry, and whatever it returns is kept for the rest of
    the process. *)
Definition load_summarizer : M (option summarization_pipeline) :=
  fun s =>
    match model_cache s with
    | Some v => (Ok v, s, [])
    | None =>
        match load_summarizer_body s with
        | (Ok v, s1, l1) =>
            (Ok v, {| the_world := the_world s1; model_cache := Some v |},
             LoadModel :: l1)
        | (Raise e, s1, l1) => (Raise e, s1, LoadModel :: l1)
        end
    end.

(** [get_text_metrics] (lines 53-62); the entries of the dictionary are
    evaluated in the order they are written. *)
Definition get_text_metrics (t : text) : M metrics :=
  traced (Cget_text_metrics t) Vmetrics
    (let wc := List.length (split t) in
     sentences <- pure_call (TextBlob_sentences t) ;;
     flesch <- pure_call (flesch_reading_ease t) ;;
     smog <- pure_call (smog_index t) ;;
     lang <- world_call (detect t) ;;
     ret {| word_count := wc;
            sentence_count := List.length sentences;
            flesch_score := flesch;
            smog_score := smog;
            language := lang |}).

(** [translate_text] (lines 64-65). *)
Definition translate_text (t target_lang : text) : M text :=
  traced (Ctranslate_text t target_lang) Vtext
    (world_call (GoogleTranslator_translate (lit "auto") target_lang t)).

(** [summarizer(text, max_length=.., min_length=.., do_sample=False)]. *)
Definition summarizer_call (p : summarization_pipeline) (t : text)
    (max_len min_len : Z) : M (list dict) :=
  traced (Csummarizer t max_len min_len false) Vsummary
    (world_call (pipeline_call p t max_len min_len false)).

(** [read_file] (lines 67-77). *)
Definition read_file (file : uploaded_file) : res text :=
  if text_eqb (file_type file) (lit "text/plain") then
    utf8_decode (file_data file)
  else if text_eqb (file_type file) (lit "application/pdf") then
    match fitz_open (file_data file) (lit "pdf") with
    | Raise e => Raise e
    | Ok doc =>
        match map_res get_text doc with
        | Raise e => Raise e
        | Ok pages => Ok (join [10%N] pages)
        end
    end
  else if text_eqb (file_type file)
            (lit "application/vnd.openxmlformats-officedocument.wordprocessingml.document")
  then
    match docx_Document (file_data file) with
    | Raise e => Raise e
    | Ok paragraphs => Ok (join [10%N] (map paragraph_text paragraphs))
    end
  else Ok [].

(** The five adapter calls of the handler (lines 108-117).  It returns
    what the rendering below uses: both metric dictionaries and the
    translated summary. *)
Definition pipeline_calls (p : summarization_pipeline) (t : text)
    (min_len max_len : Z) (target_lang : text) : M (metrics * metrics * text) :=
  original_metrics <- get_text_metrics t ;;
  translated_input <- translate_text t (lit "en") ;;
  summary <- summarizer_call p translated_input max_len min_len ;;
  first <- pure_call (first_item summary) ;;
  result <- pure_call (getitem first (lit "summary_text")) ;;
  translated_summary <- translate_text result target_lang ;;
  summary_metrics <- get_text_metrics result ;;
  ret (original_metrics, summary_metrics, translated_summary).

(** The rendering of the results (lines 120-161), in the order the
    statements run; the elements of the two columns are not told apart. *)
Definition render_results (original_metrics summary_metrics : metrics)
    (translated_summary : text) : M unit :=
  emit (UI (Columns 2)) ;;;
  emit (UI (Subheader (128202%N :: lit " Original Text Metrics"))) ;;;
  emit (UI (Write (lit "Word Count: " ++ str_of_nat (word_count original_metrics)))) ;;;
  emit (UI (Write (lit "Sentence Count: " ++ str_of_nat (sentence_count original_metrics)))) ;;;
  emit (UI (Write (lit "Flesch Readability Score: " ++ format_1f (flesch_score original_metrics)))) ;;;
  emit (UI (Write (lit "SMOG Index: " ++ format_1f (smog_score original_metrics)))) ;;;
  emit (UI (Write (lit "Detected Language: " ++ language original_metrics))) ;;;
  emit (UI (Subheader (128202%N :: lit " Summary Metrics"))) ;;;
  emit (UI (Write (lit "Word Count: " ++ str_of_nat (word_count summary_metrics)))) ;;;
  emit (UI (Write (lit "Sentence Count: " ++ str_of_nat (sentence_count summary_metrics)))) ;;;
  emit (UI (Write (lit "Flesch Readability Score: " ++ format_1f (flesch_score summary_metrics)))) ;;;
  emit (UI (Write (lit "SMOG Index: " ++ format_1f (smog_score summary_metrics)))) ;;;
  emit (UI (Write (lit "Detected Language: " ++ language summary_metrics))) ;;;
  ratio <- pure_call (compression_ratio (word_count summary_metrics)
                                        (word_count original_metrics)) ;;
  emit (UI (Metric (lit "Compression Ratio") (format_1f ratio ++ lit "%"))) ;;;
  emit (UI (Subheader (128221%N :: lit " Summary:"))) ;;;
  emit (UI (Write translated_summary)) ;;;
  emit (UI (Columns 2)) ;;;
  emit (UI (TextArea (lit "Copy from here:") translated_summary 100 (lit "copy_area"))) ;;;
  href <- pure_call (get_download_link translated_summary (lit "summary.txt")) ;;
  emit (UI (Markdown href true)) ;;;
  emit (UI (Info (lit "Click the link above to download the summary"))).

(** What the [except] clause of the handler does (lines 162-164). *)
Definition report_failure (e : exn) : M unit :=
  emit (UI (Error (lit "An error occurred during summarization: " ++ exn_str e))) ;;;
  emit (UI (Info (lit "Please try again with a different text or check your internet connection."))).

(** The body of [if st.button("Summarize"):] (lines 100-164). *)
Definition summarize_button (summarizer : option summarization_pipeline)
    (t : text) (min_len max_len : Z) (target_lang : text) : M unit :=
  if negb (truthy (strip t)) then
    emit (UI (Warning (lit "Please enter or upload some text first.")))
  else
    match summarizer with
    | None =>
        emit (UI (Error (lit "Model failed to load. Please check your internet connection and try again.")))
    | Some p =>
        emit (UI (Spinner (lit "Analyzing and summarizing..."))) ;;;
        try_except
          (r <- pipeline_calls p t min_len max_len target_lang ;;
           let '(original_metrics, summary_metrics, translated_summary) := r in
           render_results original_metrics summary_metrics translated_summary)
          report_failure
    end.

(** The text the run works on (lines 84-91). *)
Definition acquire_text (w : widgets) : M text :=
  match w_input_mode w with
  | ManualText => ret (w_text_area w)
  | UploadDocument =>
      match w_file_uploader w with
      | Some file =>
          t <- pure_call (read_file file) ;;
          emit (UI (Success (lit "Document loaded successfully!"))) ;;;
          ret t
      | None => ret []
      end
  end.

(** One run of the script: Streamlit runs it from the top on every
    interaction.  The prologue that prepares TLS and the NLTK corpora
    (lines 21-35) takes no part in what follows and is left out. *)
Definition script (w : widgets) : M unit :=
  summarizer <- load_summarizer ;;
  emit (UI (Title (128221%N :: lit "TinyTalk- Your Text summarizer and Translator"))) ;;;
  t <- acquire_text w ;;
  if w_button w then
    summarize_button summarizer t (w_min_len w) (w_max_len w) (w_target_lang w)
  else ret tt.

(** The process: the script is run once per interaction, the store is
    carried from run to run (an exception that escapes a run ends that
    run only).  The result is the final store and the events of every
    run. *)
Fixpoint process (ws : list widgets) (s : store) : store * list (list event) :=
  match ws with
  | [] => (s, [])
  | w :: ws' =>
      match script w s with
      | (_, s1, l1) =>
          match process ws' s1 with
          | (s2, ls) => (s2, l1 :: ls)
          end
      end
  end.

(** A fresh process: nothing cached yet. *)
Definition fresh (w0 : world) : store :=
  {| the_world := w0; model_cache := None |}.

End WithLibraries.
End Script.

Import Script.

(** ** Shapes of a run *)

(** [summary[0]['summary_text']]. *)
Definition summary_text_of (summary : list dict) : res text :=
  match first_item summary with
  | Raise e => Raise e
  | Ok first => getitem first (lit "summary_text")
  end.

(** The adapter events a request can produce, with the outcome of the
    five calls: each call is made on what the previous ones returned, and
    the first exception ends the sequence. *)
Inductive pipeline_run (t : text) (min_len max_len : Z) (target_lang : text) :
  res (metrics * metrics * text) -> list event -> Prop :=
| run_metrics_raised e :
    pipeline_run t min_len max_len target_lang (Raise e)
      [Call (Cget_text_metrics t); Raised e]
| run_normalize_raised m1 e :
    pipeline_run t min_len max_len target_lang (Raise e)
      [Call (Cget_text_metrics t); Return (Vmetrics m1);
       Call (Ctranslate_text t (lit "en")); Raised e]
| run_summarizer_raised m1 en e :
    pipeline_run t min_len max_len target_lang (Raise e)
      [Call (Cget_text_metrics t); Return (Vmetrics m1);
       Call (Ctranslate_text t (lit "en")); Return (Vtext en);
       Call (Csummarizer en max_len min_len false); Raised e]
| run_no_summary_text m1 en out e :
    summary_text_of out = Raise e ->
    pipeline_run t min_len max_len target_lang (Raise e)
      [Call (Cget_text_metrics t); Return (Vmetrics m1);
       Call (Ctranslate_text t (lit "en")); Return (Vtext en);
       Call (Csummarizer en max_len min_len false); Return (Vsummary out)]
| run_translate_raised m1 en out result e :
    summary_text_of out = Ok result ->
    pipeline_run t min_len max_len target_lang (Raise e)
      [Call (Cget_text_metrics t); Return (Vmetrics m1);
       Call (Ctranslate_text t (lit "en")); Return (Vtext en);
       Call (Csummarizer en max_len min_len false); Return (Vsummary out);
       Call (Ctranslate_text result target_lang); Raised e]
| run_summary_metrics_raised m1 en out result ts e :
    summary_text_of out = Ok result ->
    pipeline_run t min_len max_len target_lang (Raise e)
      [Call (Cget_text_metrics t); Return (Vmetrics m1);
       Call (Ctranslate_text t (lit "en")); Return (Vtext en);
       Call (Csummarizer en max_len min_len false); Return (Vsummary out);
       Call (Ctranslate_text result target_lang); Return (Vtext ts);
       Call (Cget_text_metrics result); Raised e]
| run_complete m1 en out result ts m2 :
    summary_text_of out = Ok result ->
    pipeline_run t min_len max_len target_lang (Ok (m1, m2, ts))
      [Call (Cget_text_metrics t); Return (Vmetrics m1);
       Call (Ctranslate_text t (lit "en")); Return (Vtext en);
       Call (Csummarizer en max_len min_len false); Return (Vsummary out);
       Call (Ctranslate_text result target_lang); Return (Vtext ts);
       Call (Cget_text_metrics result); Return (Vmetrics m2)].

(** The last event of an adapter call. *)
Definition outcome_event (A : Type) (inj : A -> value) (r : res A) : event :=
  match r with
  | Ok a => Return (inj a)
  | Raise e => Raised e
  end.

(** What the user is shown when the handler catches [e]. *)
Definition failure_report (e : exn) : list event :=
  [UI (Error (lit "An error occurred during summarization: " ++ exn_str e));
   UI (Info (lit "Please try again with a different text or check your internet connection."))].

(** The static message of a request made without a model. *)
Definition model_failed_message : event :=
  UI (Error (lit "Model failed to load. Please check your internet connection and try again.")).

(** The message of a request made without text. *)
Definition empty_input_message : event :=
  UI (Warning (lit "Please enter or upload some text first.")).

Definition is_raised (e : event) : bool :=
  match e with Raised _ => true | _ => false end.

(** The five calls of a complete request; [en] is what the first
    translation returned and [result] the summarizer's text. *)
Definition five_calls (t : text) (min_len max_len : Z) (target_lang : text)
    (en result : text) : list event :=
  [Call (Cget_text_metrics t);
   Call (Ctranslate_text t (lit "en"));
   Call (Csummarizer en max_len min_len false);
   Call (Ctranslate_text result target_lang);
   Call (Cget_text_metrics result)].

(** The text starts inside a word. *)
Definition starts_word (t : text) : bool :=
  match t with
  | [] => false
  | c :: _ => negb (is_space c)
  end.

(** ** Test doubles *)

(** The outside world of the test doubles: whether the model hub can be
    reached, how many translations the service still grants, and how
    often the language detector has drawn a random number. *)
Record mock_world : Type := {
  model_available : bool;
  translator_quota : nat;
  detector_draws : nat
}.

(** Marks the text with the target language while the quota lasts. *)
Definition mock_translate (source target_lang t : text) (w : mock_world)
  : res text * mock_world :=
  match translator_quota w with
  | O => (Raise (Exn "TooManyRequests" (lit "quota exceeded")), w)
  | S q =>
      (Ok (target_lang ++ lit ":" ++ t),
       {| model_available := model_available w;
          translator_quota := q;
          detector_draws := detector_draws w |})
  end.

(** A detector that answers by what it draws unless it is seeded. *)
Definition mock_detect (seeded : bool) (t : text) (w : mock_world)
  : res text * mock_world :=
  if negb (truthy (strip t)) then
    (Raise (Exn "LangDetectException" (lit "No features in text.")), w)
  else if seeded then (Ok (lit "en"), w)
  else
    (Ok (if Nat.even (detector_draws w) then lit "en" else lit "nl"),
     {| model_available := model_available w;
        translator_quota := translator_quota w;
        detector_draws := S (detector_draws w) |}).

Definition mock_from_pretrained (name : text) (w : mock_world)
  : res unit * mock_world :=
  if model_available w then (Ok tt, w)
  else (Raise (Exn "OSError" (lit "cannot reach the model hub")), w).

(** Keeps the first two words; refuses bounds that cross. *)
Definition mock_pipeline_call (p : unit) (t : text) (max_len min_len : Z)
    (do_sample : bool) (w : mock_world) : res (list dict) * mock_world :=
  if (max_len <? min_len)%Z then
    (Raise (Exn "ValueError" (lit "min_length exceeds max_length")), w)
  else (Ok [[(lit "summary_text", join [32%N] (firstn 2 (split t)))]], w).

(** One page, or one paragraph, per line. *)
Fixpoint lines_of (cur : text) (b : bytes) : list text :=
  match b with
  | [] => [rev cur]
  | c :: b' => if (c =? 10)%N then rev cur :: lines_of [] b'
               else lines_of (c :: cur) b'
  end.

Definition mock_libraries (seeded : bool) : Libraries := {|
  world := mock_world;
  tokenizer := unit;
  seq2seq_model := unit;
  summarization_pipeline := unit;
  pdf_page := text;
  docx_paragraph := text;
  AutoTokenizer_from_pretrained := mock_from_pretrained;
  AutoModelForSeq2SeqLM_from_pretrained := mock_from_pretrained;
  pipeline := fun _ _ _ w => (Ok tt, w);
  pipeline_call := mock_pipeline_call;
  GoogleTranslator_translate := mock_translate;
  detect := mock_detect seeded;
  TextBlob_sentences := fun t => Ok [t];
  flesch_reading_ease := fun _ => Ok (2068 # 10);
  smog_index := fun _ => Ok 0;
  fitz_open := fun b _ => Ok (lines_of [] b);
  get_text := fun p => Ok p;
  docx_Document := fun b => Ok (lines_of [] b);
  paragraph_text := fun p => p
|}.

Definition online : mock_world :=
  {| model_available := true; translator_quota := 10; detector_draws := 0 |}.

Definition translator_down : mock_world :=
  {| model_available := true; translator_quota := 0; detector_draws := 0 |}.

Definition offline : mock_world :=
  {| model_available := false; translator_quota := 10; detector_draws := 0 |}.

Definition one_translation_left : mock_world :=
  {| model_available := true; translator_quota := 1; detector_draws := 0 |}.

Definition manual (t : text) (pressed : bool) : widgets :=
  {| w_input_mode := ManualText; w_text_area := t; w_file_uploader := None;
     w_min_len := 30; w_max_len := 60; w_target_lang := lit "es";
     w_button := pressed |}.

(** The libraries with a seeded detector. *)
Definition seeded : Libraries := mock_libraries true.

Definition fox : text := lit "the quick brown fox".

(** Punctuation next to whitespace, and nothing else. *)
Definition punctuation_only : text := lit " . , ! ".

Definition fox_metrics : metrics :=
  {| word_count := 4; sentence_count := 1; flesch_score := 2068 # 10;
     smog_score := 0; language := lit "en" |}.

Definition quota_exceeded : exn := Exn "TooManyRequests" (lit "quota exceeded").

(** A Word document of three paragraphs. *)
Definition three_paragraphs : uploaded_file :=
  {| file_type :=
       lit "application/vnd.openxmlformats-officedocument.wordprocessingml.document";
     file_data := lit "one" ++ [10%N] ++ lit "two" ++ [10%N] ++ lit "three" |}.

(** A Unicode scalar value: at most U+10FFFF and no surrogate. *)
Definition is_scalar (c : char) : bool :=
  (c <=? 1114111)%N && negb (is_surrogate c).

(** A character of base64 output: a letter, a digit, '+', '/' or the
    padding '='. *)
Definition is_b64_char (c : N) : bool :=
  ((65 <=? c) && (c <=? 90) || (97 <=? c) && (c <=? 122) ||
   (48 <=? c) && (c <=? 57) || (c =? 43) || (c =? 47) || (c =? 61))%N.

Definition upload (file : uploaded_file) (pressed : bool) : widgets :=
  {| w_input_mode := UploadDocument; w_text_area := [];
     w_file_uploader := Some file;
     w_min_len := 30; w_max_len := 60; w_target_lang := lit "es";
     w_button := pressed |}.

(** A text file that is not UTF-8, and an image. *)
Definition broken_text_file : uploaded_file :=
  {| file_type := lit "text/plain"; file_data := [104; 255; 105]%N |}.

Definition png_file : uploaded_file :=
  {| file_type := lit "image/png"; file_data := [137; 80; 78; 71]%N |}.

(** The metrics of a text of [n] words, as the doubles report them. *)
Definition counted (n : nat) : metrics :=
  {| word_count := n; sentence_count := 1; flesch_score := 2068 # 10;
     smog_score := 0; language := lit "en" |}.

(** A process that has loaded the model. *)
Definition loaded : @store seeded :=
  @Build_store seeded online (Some (Some tt)).

(** ** Facts about [strip] and [split] *)

Section TextFacts.

Lemma blank_nil : blank [].
Proof. constructor. Qed.

Lemma blank_cons (c : char) (t : text) :
  blank (c :: t) <-> is_space c = true /\ blank t.
Proof.
  unfold blank; split.
  - intros H; inversion H; subst; auto.
  - intros [Hc Ht]; constructor; assumption.
Qed.

Lemma blank_app (a b : text) : blank (a ++ b) <-> blank a /\ blank b.
Proof. unfold blank; apply Forall_app. Qed.

Lemma blank_rev (t : text) : blank (rev t) <-> blank t.
Proof.
  unfold blank; split; intros H.
  - rewrite <- (rev_involutive t); apply Forall_rev; exact H.
  - apply Forall_rev; exact H.
Qed.

(** Stripping leaves either nothing or a text that starts inside a word. *)
Lemma lstrip_shape (t : text) : lstrip t = [] \/ starts_word (lstrip t) = true.
Proof.
  induction t as [|c t IH]; simpl; [left; reflexivity|].
  destruct (is_space c) eqn:Hc; [exact IH|].
  right; simpl; rewrite Hc; reflexivity.
Qed.

Lemma lstrip_nil_iff (t : text) : lstrip t = [] <-> blank t.
Proof.
  induction t as [|c t IH]; simpl.
  - split; intros _; [apply blank_nil | reflexivity].
  - rewrite blank_cons. destruct (is_space c) eqn:Hc.
    + rewrite IH; tauto.
    + split; [discriminate | intros [H _]; discriminate].
Qed.

Lemma strip_nil_iff (t : text) : strip t = [] <-> blank t.
Proof.
  unfold strip, rstrip. split.
  - intros H.
    assert (Hr : lstrip (rev (lstrip t)) = []).
    { rewrite <- (rev_involutive (lstrip (rev (lstrip t)))), H; reflexivity. }
    apply lstrip_nil_iff in Hr. apply (proj1 (blank_rev _)) in Hr.
    destruct (lstrip_shape t) as [Hn | Hw].
    + apply lstrip_nil_iff; exact Hn.
    + destruct (lstrip t) as [|c r]; [discriminate|].
      apply blank_cons in Hr; destruct Hr as [Hc _].
      simpl in Hw; rewrite Hc in Hw; discriminate.
  - intros H. apply lstrip_nil_iff in H. rewrite H; reflexivity.
Qed.

(** The handler's test [not text.strip()] decides blankness. *)
Lemma validation_rejects_iff (t : text) :
  negb (truthy (strip t)) = true <-> blank t.
Proof.
  rewrite <- strip_nil_iff.
  destruct (strip t); simpl; split; intros H; try reflexivity; discriminate.
Qed.

Lemma validation_accepts_iff (t : text) :
  negb (truthy (strip t)) = false <-> ~ blank t.
Proof.
  rewrite <- validation_rejects_iff.
  destruct (negb (truthy (strip t))); split; intros H.
  - discriminate.
  - exfalso; apply H; reflexivity.
  - discriminate.
  - reflexivity.
Qed.

(** The scanner against the look-ahead definition, whatever run it is
    collecting. *)
Lemma split_scan_spec (t : text) :
  split_scan None t = split_on_whitespace t /\
  forall w,
    split_scan (Some w) t =
    if starts_word t then
      match split_on_whitespace t with
      | x :: xs => (rev w ++ x) :: xs
      | [] => [rev w]
      end
    else rev w :: split_on_whitespace t.
Proof.
  induction t as [|c t [IH0 IH1]].
  - split; [reflexivity | intros w; reflexivity].
  - split.
    + simpl. destruct (is_space c) eqn:Hc; [exact IH0|].
      rewrite IH1. destruct t as [|c' t']; [reflexivity|].
      cbn [starts_word]. destruct (is_space c') eqn:Hc'; cbn [negb].
      * reflexivity.
      * destruct (split_on_whitespace (c' :: t')); reflexivity.
    + intros w. cbn [split_scan starts_word split_on_whitespace].
      destruct (is_space c) eqn:Hc; cbn [negb].
      * rewrite IH0; reflexivity.
      * rewrite IH1. destruct t as [|c' t'].
        -- cbn. reflexivity.
        -- cbn [starts_word]. destruct (is_space c') eqn:Hc'; cbn [negb].
           ++ reflexivity.
           ++ destruct (split_on_whitespace (c' :: t')) as [|x xs];
                cbn [rev]; try rewrite <- app_assoc; reflexivity.
Qed.

(** Python's [split()] yields the maximal runs of non-whitespace
    characters. *)
Lemma split_is_split_on_whitespace (t : text) :
  split t = split_on_whitespace t.
Proof. apply split_scan_spec. Qed.

Lemma split_on_whitespace_nil_iff (t : text) :
  split_on_whitespace t = [] <-> blank t.
Proof.
  induction t as [|c t IH].
  - split; intros _; [apply blank_nil | reflexivity].
  - rewrite blank_cons. cbn [split_on_whitespace].
    destruct (is_space c) eqn:Hc.
    + rewrite IH; tauto.
    + split; [|intros [H _]; discriminate].
      destruct t as [|c' t']; [discriminate|].
      destruct (is_space c'); [discriminate|].
      destruct (split_on_whitespace (c' :: t')); discriminate.
Qed.

(** Every token is a non-empty run free of whitespace. *)
Lemma split_on_whitespace_tokens (t : text) :
  Forall (fun w => w <> [] /\ Forall (fun c => is_space c = false) w)
         (split_on_whitespace t).
Proof.
  induction t as [|c t IH]; [constructor|].
  cbn [split_on_whitespace]. destruct (is_space c) eqn:Hc; [exact IH|].
  assert (H1 : [c] <> [] /\ Forall (fun c => is_space c = false) [c]).
  { split; [discriminate | repeat constructor; exact Hc]. }
  destruct t as [|c' t']; [constructor; [exact H1 | constructor]|].
  destruct (is_space c') eqn:Hc'; [constructor; [exact H1 | exact IH]|].
  destruct (split_on_whitespace (c' :: t')) as [|x xs];
    [constructor; [exact H1 | constructor]|].
  inversion IH as [|? ? [Hx Hx'] Hxs]; subst.
  constructor; [|exact Hxs].
  split; [discriminate | constructor; assumption].
Qed.

(** The tokens, put together, are the text without its whitespace. *)
Lemma split_on_whitespace_concat (t : text) :
  List.concat (split_on_whitespace t) = filter (fun c => negb (is_space c)) t.
Proof.
  induction t as [|c t IH]; [reflexivity|].
  cbn [split_on_whitespace filter]. destruct (is_space c) eqn:Hc; cbn [negb].
  - exact IH.
  - destruct t as [|c' t']; [reflexivity|].
    rewrite <- IH. destruct (is_space c') eqn:Hc'; [reflexivity|].
    destruct (split_on_whitespace (c' :: t')); reflexivity.
Qed.

(** A text that passes the validation has at least one word. *)
Lemma accepted_text_has_words (t : text) :
  negb (truthy (strip t)) = false -> (1 <= List.length (split t))%nat.
Proof.
  intros H. apply validation_accepts_iff in H.
  rewrite split_is_split_on_whitespace.
  destruct (split_on_whitespace t) eqn:E; [|simpl; lia].
  exfalso; apply H, split_on_whitespace_nil_iff; exact E.
Qed.

End TextFacts.

(** ** Facts about the encodings *)

Section Encodings.
Local Open Scope N_scope.

Ltac decide_tests :=
  repeat match goal with
         | |- context [N.ltb ?a ?b] =>
             first [ rewrite (proj2 (N.ltb_lt a b)) by lia
                   | rewrite (proj2 (N.ltb_ge a b)) by lia ]
         | |- context [N.leb ?a ?b] =>
             first [ rewrite (proj2 (N.leb_le a b)) by lia
                   | rewrite (proj2 (N.leb_gt a b)) by lia ]
         end.

(** Splitting a code point into groups of six bits. *)
Lemma six_bits (c : N) :
  c = 64 * (c / 64) + c mod 64 /\ c mod 64 < 64.
Proof.
  split; [apply N.div_mod; discriminate | apply N.mod_lt; discriminate].
Qed.

Lemma decode_two_octets (c : char) (r : bytes) :
  128 <= c -> c < 2048 ->
  utf8_decode (192 + c / 64 :: 128 + c mod 64 :: r)
  = match utf8_decode r with Ok t => Ok (c :: t) | Raise e => Raise e end.
Proof.
  intros H1 H2. destruct (six_bits c) as [E M].
  cbn [utf8_decode]. unfold is_cont.
  set (q := c / 64) in *. set (m := c mod 64) in *. clearbody q m.
  decide_tests. cbn [andb].
  replace ((192 + q - 192) * 64 + (128 + m - 128)) with c by lia.
  reflexivity.
Qed.

Lemma decode_three_octets (c : char) (r : bytes) :
  2048 <= c -> c < 65536 -> is_surrogate c = false ->
  utf8_decode (224 + c / 4096 :: 128 + (c / 64) mod 64 :: 128 + c mod 64 :: r)
  = match utf8_decode r with Ok t => Ok (c :: t) | Raise e => Raise e end.
Proof.
  intros H1 H2 Hs. destruct (six_bits c) as [E M].
  destruct (six_bits (c / 64)) as [E' M'].
  replace (c / 4096) with (c / 64 / 64) by (rewrite N.Div0.div_div; reflexivity).
  cbn [utf8_decode]. unfold is_cont.
  set (q := c / 64) in *. set (m := c mod 64) in *.
  set (q' := q / 64) in *. set (m' := q mod 64) in *. clearbody q m q' m'.
  replace ((224 + q' - 224) * 4096 + (128 + m' - 128) * 64 + (128 + m - 128))
    with c by lia.
  rewrite Hs. decide_tests. reflexivity.
Qed.

Lemma decode_four_octets (c : char) (r : bytes) :
  65536 <= c -> c <= 1114111 ->
  utf8_decode (240 + c / 262144 :: 128 + (c / 4096) mod 64
               :: 128 + (c / 64) mod 64 :: 128 + c mod 64 :: r)
  = match utf8_decode r with Ok t => Ok (c :: t) | Raise e => Raise e end.
Proof.
  intros H1 H2. destruct (six_bits c) as [E M].
  destruct (six_bits (c / 64)) as [E' M'].
  destruct (six_bits (c / 64 / 64)) as [E'' M''].
  replace (c / 262144) with (c / 64 / 64 / 64)
    by (rewrite !N.Div0.div_div; reflexivity).
  replace (c / 4096) with (c / 64 / 64) by (rewrite N.Div0.div_div; reflexivity).
  cbn [utf8_decode]. unfold is_cont.
  set (q := c / 64) in *. set (m := c mod 64) in *.
  set (q' := q / 64) in *. set (m' := q mod 64) in *.
  set (q'' := q' / 64) in *. set (m'' := q' mod 64) in *.
  clearbody q m q' m' q'' m''.
  replace ((240 + q'' - 240) * 262144 + (128 + m'' - 128) * 4096
           + (128 + m' - 128) * 64 + (128 + m - 128)) with c by lia.
  decide_tests. reflexivity.
Qed.

Lemma Ok_inj (A : Type) (a b : A) : Ok a = Ok b -> a = b.
Proof. intros H; injection H as ->; reflexivity. Qed.

(** Decoding what [str.encode()] produced gives the string back. *)
Lemma utf8_decode_encode (t : text) (r : bytes) :
  utf8_encode t = Ok r -> utf8_decode r = Ok t.
Proof.
  revert r. induction t as [|c t IH]; intros r; cbn [utf8_encode].
  - intros H; injection H as <-; reflexivity.
  - destruct (utf8_encode t) as [r'|e].
    2:{ repeat match goal with
               | |- context [if ?b then _ else _] => destruct b
               end; discriminate. }
    specialize (IH r' eq_refl).
    destruct (N.ltb_spec c 128) as [H1|H1].
    { intros H; apply Ok_inj in H; subst r. cbn [app utf8_decode].
      rewrite (proj2 (N.ltb_lt c 128) H1), IH. reflexivity. }
    destruct (N.ltb_spec c 2048) as [H2|H2].
    { intros H; apply Ok_inj in H; subst r. cbn [app].
      rewrite decode_two_octets, IH by assumption. reflexivity. }
    destruct (N.ltb_spec c 65536) as [H3|H3].
    { destruct (is_surrogate c) eqn:Hs; [discriminate|].
      intros H; apply Ok_inj in H; subst r. cbn [app].
      rewrite decode_three_octets, IH by assumption. reflexivity. }
    destruct (N.leb_spec c 1114111) as [H4|H4]; [|discriminate].
    intros H; apply Ok_inj in H; subst r. cbn [app].
    rewrite decode_four_octets, IH by assumption. reflexivity.
Qed.

Lemma b64_symbol_ascii (n : N) : b64_symbol n < 128.
Proof.
  unfold b64_symbol.
  repeat match goal with
         | |- context [N.ltb ?a ?b] => destruct (N.ltb_spec a b)
         | |- context [N.eqb ?a ?b] => destruct (N.eqb_spec a b)
         end; lia.
Qed.

Lemma utf8_decode_ascii (b : bytes) :
  Forall (fun x => x < 128) b -> utf8_decode b = Ok b.
Proof.
  induction 1 as [|x b Hx _ IH]; [reflexivity|].
  cbn [utf8_decode]. rewrite (proj2 (N.ltb_lt x 128) Hx), IH. reflexivity.
Qed.

Lemma b64encode_ascii (b : bytes) : Forall (fun x => x < 128) (b64encode b).
Proof.
  assert (H : forall n b, (List.length b <= n)%nat ->
                          Forall (fun x => x < 128) (b64encode b)).
  { clear b. induction n as [|n IH]; intros b Hn.
    - destruct b; [constructor | simpl in Hn; lia].
    - destruct b as [|x [|y [|z rest]]]; cbn [b64encode].
      + constructor.
      + repeat constructor; apply b64_symbol_ascii.
      + repeat constructor; apply b64_symbol_ascii.
      + repeat (constructor; [apply b64_symbol_ascii|]).
        apply IH. simpl in Hn. lia. }
  exact (H (List.length b) b (le_n _)).
Qed.

(** The link can be built for every string that can be encoded. *)
Lemma get_download_link_defined (t filename : text) (raw : bytes) :
  utf8_encode t = Ok raw ->
  exists href, get_download_link t filename = Ok href.
Proof.
  intros H. unfold get_download_link.
  rewrite H, (@utf8_decode_ascii _ (b64encode_ascii raw)). eexists; reflexivity.
Qed.

End Encodings.

(** ** How the adapters and the handler run *)

Section Runs.

Context {L : Libraries}.

Lemma get_text_metrics_run (t : text) (s : store) :
  exists r s',
    get_text_metrics t s
    = (r, s', [Call (Cget_text_metrics t); outcome_event Vmetrics r]) /\
    model_cache s' = model_cache s /\
    (forall m, r = Ok m -> word_count m = List.length (split t)).
Proof.
  unfold get_text_metrics, traced, bind, pure_call, world_call, ret.
  destruct (TextBlob_sentences t) as [sents|e];
    [|exists (Raise e), s; repeat split; discriminate].
  destruct (flesch_reading_ease t) as [f|e];
    [|exists (Raise e), s; repeat split; discriminate].
  destruct (smog_index t) as [g|e];
    [|exists (Raise e), s; repeat split; discriminate].
  destruct (detect t (the_world s)) as [[lang|e] w'].
  - eexists (Ok _), _; repeat split.
    intros m Hm; injection Hm as <-; reflexivity.
  - eexists (Raise e), _; repeat split; discriminate.
Qed.

Lemma translate_text_run (t target_lang : text) (s : store) :
  exists r s',
    translate_text t target_lang s
    = (r, s', [Call (Ctranslate_text t target_lang); outcome_event Vtext r]) /\
    model_cache s' = model_cache s.
Proof.
  unfold translate_text, traced, world_call.
  destruct (GoogleTranslator_translate (lit "auto") target_lang t (the_world s))
    as [[en|e] w']; [eexists (Ok _), _ | eexists (Raise _), _];
    split; reflexivity.
Qed.

Lemma summarizer_call_run (p : summarization_pipeline) (t : text)
    (max_len min_len : Z) (s : store) :
  exists r s',
    summarizer_call p t max_len min_len s
    = (r, s', [Call (Csummarizer t max_len min_len false);
               outcome_event Vsummary r]) /\
    model_cache s' = model_cache s.
Proof.
  unfold summarizer_call, traced, world_call.
  destruct (pipeline_call p t max_len min_len false (the_world s))
    as [[out|e] w']; [eexists (Ok _), _ | eexists (Raise _), _];
    split; reflexivity.
Qed.

(** The five calls: what they return and the events they leave. *)
Lemma pipeline_calls_run (p : summarization_pipeline) (t : text)
    (min_len max_len : Z) (target_lang : text) (s : store) :
  exists r s' l,
    pipeline_calls p t min_len max_len target_lang s = (r, s', l) /\
    pipeline_run t min_len max_len target_lang r l /\
    model_cache s' = model_cache s /\
    (forall m1 m2 ts, r = Ok (m1, m2, ts) ->
       word_count m1 = List.length (split t)).
Proof.
  unfold pipeline_calls, bind.
  destruct (get_text_metrics_run t s) as (r1 & s1 & E1 & C1 & W1).
  rewrite E1. destruct r1 as [m1|e];
    [|eexists _, _, _; split; [reflexivity|]; split; [constructor|];
      split; [exact C1 | discriminate]].
  destruct (translate_text_run t (lit "en") s1) as (r2 & s2 & E2 & C2).
  rewrite E2. destruct r2 as [en|e];
    [|eexists _, _, _; split; [reflexivity|]; split; [constructor|];
      split; [congruence | discriminate]].
  destruct (summarizer_call_run p en max_len min_len s2) as (r3 & s3 & E3 & C3).
  rewrite E3. destruct r3 as [out|e];
    [|eexists _, _, _; split; [reflexivity|]; split; [constructor|];
      split; [congruence | discriminate]].
  unfold pure_call.
  destruct (first_item out) as [first|e] eqn:Ef;
    [|eexists _, _, _; split; [reflexivity|]; split;
      [apply run_no_summary_text; unfold summary_text_of; rewrite Ef; reflexivity|];
      split; [congruence | discriminate]].
  destruct (getitem first (lit "summary_text")) as [result|e] eqn:Eg;
    [|eexists _, _, _; split; [reflexivity|]; split;
      [apply run_no_summary_text; unfold summary_text_of; rewrite Ef; exact Eg|];
      split; [congruence | discriminate]].
  assert (Hst : summary_text_of out = Ok result)
    by (unfold summary_text_of; rewrite Ef; exact Eg).
  destruct (translate_text_run result target_lang s3) as (r4 & s4 & E4 & C4).
  rewrite E4. destruct r4 as [ts|e];
    [|eexists _, _, _; split; [reflexivity|]; split;
      [apply run_translate_raised; exact Hst|];
      split; [congruence | discriminate]].
  destruct (get_text_metrics_run result s4) as (r5 & s5 & E5 & C5 & _).
  rewrite E5. destruct r5 as [m2|e];
    [|eexists _, _, _; split; [reflexivity|]; split;
      [apply run_summary_metrics_raised; exact Hst|];
      split; [congruence | discriminate]].
  unfold ret. eexists _, _, _; split; [reflexivity|]; split;
    [apply run_complete; exact Hst|]; split; [congruence|].
  intros m1' m2' ts' H; injection H as <- <- <-. apply W1; reflexivity.
Qed.

(** Rendering touches neither the world nor the cache and leaves only
    output elements; with a non-zero divisor the ratio is among them. *)
Lemma render_results_run (m1 m2 : metrics) (ts : text) (s : store) :
  exists r l,
    render_results m1 m2 ts s = (r, s, l) /\
    Forall (fun e => is_ui e = true) l /\
    (forall q, compression_ratio (word_count m2) (word_count m1) = Ok q ->
       In (UI (Metric (lit "Compression Ratio") (format_1f q ++ lit "%"))) l).
Proof.
  unfold render_results, bind, emit, pure_call.
  destruct (compression_ratio (word_count m2) (word_count m1)) as [q|e].
  - destruct (get_download_link ts (lit "summary.txt")) as [href|e];
      (eexists _, _; split; [reflexivity|]; split;
       [repeat (apply Forall_cons; [reflexivity|]); apply Forall_nil
       | intros q' Hq; injection Hq as <-; simpl; tauto]).
  - eexists _, _; split; [reflexivity|]; split;
      [repeat (apply Forall_cons; [reflexivity|]); apply Forall_nil
      | discriminate].
Qed.

(** A request that passes both checks: the spinner, then the adapter
    events of the five calls, then either the failure report or the
    rendered results.  The handler itself never raises. *)
Lemma summarize_button_run (p : summarization_pipeline) (t : text)
    (min_len max_len : Z) (target_lang : text) (s : store) :
  negb (truthy (strip t)) = false ->
  exists rc s' calls rest,
    summarize_button (Some p) t min_len max_len target_lang s
    = (Ok tt, s', UI (Spinner (lit "Analyzing and summarizing...")) :: calls ++ rest) /\
    pipeline_run t min_len max_len target_lang rc calls /\
    model_cache s' = model_cache s /\
    (forall m1 m2 ts, rc = Ok (m1, m2, ts) ->
       word_count m1 = List.length (split t)) /\
    Forall (fun e => is_ui e = true) rest /\
    match rc with
    | Raise e => rest = failure_report e
    | Ok (m1, m2, ts) =>
        exists rr l,
          render_results m1 m2 ts s' = (rr, s', l) /\
          rest = l ++ match rr with
                      | Ok _ => []
                      | Raise e => failure_report e
                      end
    end.
Proof.
  intros Hv. unfold summarize_button. rewrite Hv.
  unfold bind at 1. unfold emit at 1. unfold try_except, bind.
  destruct (pipeline_calls_run p t min_len max_len target_lang s)
    as (rc & s1 & l & E & Hrun & Hc & Hw).
  assert (Hrep : forall e, Forall (fun e => is_ui e = true) (failure_report e))
    by (intros e; repeat constructor).
  rewrite E. destruct rc as [[[m1 m2] ts]|e].
  - destruct (render_results_run m1 m2 ts s1) as (rr & lr & Er & Hui & _).
    rewrite Er. destruct rr as [[]|e].
    + exists (Ok (m1, m2, ts)), s1, l, lr. repeat split; try assumption.
      exists (Ok tt), lr. split; [exact Er | rewrite app_nil_r; reflexivity].
    + exists (Ok (m1, m2, ts)), s1, l, (lr ++ failure_report e).
      cbn. rewrite <- app_assoc. repeat split; try assumption.
      * apply Forall_app; split; [exact Hui | apply Hrep].
      * exists (Raise e), lr. split; [exact Er | reflexivity].
  - exists (Raise e), s1, l, (failure_report e). cbn.
    repeat split; try assumption. apply Hrep.
Qed.

End Runs.

(** ** Rounding to 53 bits *)

Section Rounding.

Lemma pow2_pos (e : Z) : 0 < pow2 e.
Proof. apply Qpower_0_lt. reflexivity. Qed.

Lemma pow2_add (a b : Z) : pow2 (a + b) == pow2 a * pow2 b.
Proof. apply Qpower_plus. discriminate. Qed.

Lemma pow2_le (a b : Z) : (a <= b)%Z -> pow2 a <= pow2 b.
Proof. intros H. apply Qpower_le_compat_l; [exact H | discriminate]. Qed.

Lemma pow2_lt (a b : Z) : (a < b)%Z -> pow2 a < pow2 b.
Proof. intros H. apply Qpower_lt_compat_l; [exact H | reflexivity]. Qed.

Lemma pow2_lt_inv (a b : Z) : pow2 a < pow2 b -> (a < b)%Z.
Proof. intros H. apply (Qpower_lt_compat_l_inv 2); [exact H | reflexivity]. Qed.

Lemma pow2_inject (n : Z) : (0 <= n)%Z -> inject_Z (2 ^ n) == pow2 n.
Proof. intros H. apply (Zpower_Qpower 2 n H). Qed.

Lemma pow2_succ (a : Z) : pow2 (a + 1) == 2 * pow2 a.
Proof. rewrite pow2_add. change (pow2 1) with 2. apply Qmult_comm. Qed.

(** The nearest integer lies between the floor and its successor. *)
Lemma rne_bounds (y : Q) : (Qfloor y <= rne y <= Qfloor y + 1)%Z.
Proof.
  unfold rne. destruct (Qcompare (y - inject_Z (Qfloor y)) (1 # 2));
    try destruct (Z.even (Qfloor y)); lia.
Qed.

Lemma rne_Z (z : Z) : rne (inject_Z z) = z.
Proof.
  unfold rne. rewrite Qfloor_Z.
  destruct (Qcompare_spec (inject_Z z - inject_Z z) (1 # 2)) as [H|H|H];
    [exfalso; lra | reflexivity | exfalso; lra].
Qed.

Lemma rne_mono (x y : Q) : x <= y -> (rne x <= rne y)%Z.
Proof.
  intros H. pose proof (Qfloor_resp_le _ _ H) as Hf.
  pose proof (rne_bounds x) as Bx. pose proof (rne_bounds y) as By.
  destruct (Z.eq_dec (Qfloor x) (Qfloor y)) as [E|N]; [|lia].
  unfold rne in *. rewrite E in *.
  destruct (Qcompare_spec (x - inject_Z (Qfloor y)) (1 # 2)) as [Hx|Hx|Hx];
    destruct (Qcompare_spec (y - inject_Z (Qfloor y)) (1 # 2)) as [Hy|Hy|Hy];
    try destruct (Z.even (Qfloor y)); try lia; exfalso; lra.
Qed.

(** Rounding to an integer moves by at most one half. *)
Lemma rne_error (y : Q) :
  y - (1 # 2) <= inject_Z (rne y) /\ inject_Z (rne y) <= y + (1 # 2).
Proof.
  pose proof (Qfloor_le y) as Hl. pose proof (Qlt_floor y) as Hu.
  rewrite inject_Z_plus in Hu. change (inject_Z 1) with 1 in Hu. unfold rne.
  destruct (Qcompare_spec (y - inject_Z (Qfloor y)) (1 # 2)) as [H|H|H];
    try destruct (Z.even (Qfloor y));
    rewrite ?inject_Z_plus; change (inject_Z 1) with 1; split; lra.
Qed.

Lemma rne_proper (x y : Q) : x == y -> rne x = rne y.
Proof.
  intros H. unfold rne. rewrite (Qfloor_comp _ _ H).
  rewrite (Qcompare_comp (x - inject_Z (Qfloor y)) (y - inject_Z (Qfloor y))
             ltac:(rewrite H; reflexivity) (1 # 2) (1 # 2) ltac:(reflexivity)).
  reflexivity.
Qed.

(** The quotient of two positive integers lies within a factor of two
    of the power given by their bit lengths. *)
Lemma quotient_binade (n : Z) (d : positive) :
  (0 < n)%Z ->
  pow2 (Z.log2 n - Z.log2 (Z.pos d) - 1) < n # d /\
  n # d < pow2 (Z.log2 n - Z.log2 (Z.pos d) + 1).
Proof.
  intros Hn.
  destruct (Z.log2_spec n Hn) as [Hn1 Hn2].
  destruct (Z.log2_spec (Z.pos d) ltac:(lia)) as [Hd1 Hd2].
  pose proof (Z.log2_nonneg n) as Ln. pose proof (Z.log2_nonneg (Z.pos d)) as Ld.
  set (a := Z.log2 n) in *. set (b := Z.log2 (Z.pos d)) in *.
  rewrite Zle_Qle, pow2_inject in Hn1 by lia.
  rewrite Zlt_Qlt, pow2_inject in Hn2 by lia.
  rewrite Zle_Qle, pow2_inject in Hd1 by lia.
  rewrite Zlt_Qlt, pow2_inject in Hd2 by lia.
  assert (Hdp : 0 < inject_Z (Z.pos d)) by reflexivity.
  rewrite (Qmake_Qdiv n d). split.
  - apply Qlt_shift_div_l; [exact Hdp|].
    apply Qlt_le_trans with (pow2 (a - b - 1) * pow2 (b + 1)).
    + apply Qmult_lt_l; [apply pow2_pos|].
      replace (b + 1)%Z with (Z.succ b) by lia. exact Hd2.
    + rewrite <- pow2_add. replace (a - b - 1 + (b + 1))%Z with a by lia.
      exact Hn1.
  - apply Qlt_shift_div_r; [exact Hdp|].
    apply Qlt_le_trans with (pow2 (a - b + 1) * pow2 b).
    + rewrite <- pow2_add. replace (a - b + 1 + b)%Z with (Z.succ a) by lia.
      exact Hn2.
    + apply Qmult_le_l; [apply pow2_pos | exact Hd1].
Qed.

(** [binade] finds the exponent of the leading bit. *)
Lemma binade_spec (x : Q) :
  0 < x -> pow2 (52 + binade x) <= x /\ x < pow2 (53 + binade x).
Proof.
  intros Hx.
  assert (Hn : (0 < Qnum x)%Z).
  { unfold Qlt in Hx. simpl in Hx. lia. }
  destruct x as [n d]. cbn [Qnum Qden] in *.
  destruct (quotient_binade d Hn) as [Hl Hu].
  unfold binade. cbn [Qnum Qden].
  set (e1 := (Z.log2 n - Z.log2 (Z.pos d) - 52)%Z) in *.
  replace (Z.log2 n - Z.log2 (Z.pos d) - 1)%Z with (51 + e1)%Z in Hl by lia.
  replace (Z.log2 n - Z.log2 (Z.pos d) + 1)%Z with (53 + e1)%Z in Hu by lia.
  destruct (Qle_bool (pow2 52) ((n # d) / pow2 e1)) eqn:Ht.
  - apply Qle_bool_iff in Ht. split; [|exact Hu].
    rewrite pow2_add.
    apply (proj2 (Qmult_le_r _ _ (pow2 e1) (pow2_pos e1))) in Ht.
    rewrite (Qmult_comm ((n # d) / pow2 e1)), Qmult_div_r in Ht; [exact Ht|].
    intros E. pose proof (pow2_pos e1) as P. rewrite E in P. discriminate.
  - assert (Hlt : (n # d) / pow2 e1 < pow2 52).
    { apply Qnot_le_lt. intros H. apply Qle_bool_iff in H. congruence. }
    apply (proj2 (Qmult_lt_r _ _ (pow2 e1) (pow2_pos e1))) in Hlt.
    rewrite (Qmult_comm ((n # d) / pow2 e1)), Qmult_div_r in Hlt.
    2:{ intros E. pose proof (pow2_pos e1) as P. rewrite E in P. discriminate. }
    rewrite <- pow2_add in Hlt. split.
    + replace (52 + (e1 - 1))%Z with (51 + e1)%Z by lia.
      apply Qlt_le_weak. exact Hl.
    + replace (53 + (e1 - 1))%Z with (52 + e1)%Z by lia. exact Hlt.
Qed.

Lemma pow2_nonzero (e : Z) : ~ pow2 e == 0.
Proof. intros E. pose proof (pow2_pos e) as P. rewrite E in P. discriminate. Qed.

Lemma scaled_back (x : Q) (e : Z) : x / pow2 e * pow2 e == x.
Proof. rewrite Qmult_comm. apply Qmult_div_r, pow2_nonzero. Qed.

(** Scaled by its binade, a positive number lies in [2^52, 2^53). *)
Lemma scaled_bounds (x : Q) :
  0 < x ->
  inject_Z (2 ^ 52) <= x / pow2 (binade x) /\
  x / pow2 (binade x) < inject_Z (2 ^ 53).
Proof.
  intros Hx. destruct (binade_spec Hx) as [Hl Hu].
  rewrite pow2_add in Hl, Hu. rewrite !pow2_inject by lia. split.
  - apply Qle_shift_div_l; [apply pow2_pos | exact Hl].
  - apply Qlt_shift_div_r; [apply pow2_pos | exact Hu].
Qed.

Lemma round53_pos_bounds (x : Q) :
  0 < x ->
  pow2 (52 + binade x) <= round53_pos x /\
  round53_pos x <= pow2 (53 + binade x).
Proof.
  intros Hx. destruct (scaled_bounds Hx) as [Hl Hu].
  unfold round53_pos. cbv zeta. rewrite !pow2_add.
  apply rne_mono in Hl. rewrite rne_Z in Hl.
  apply Qlt_le_weak, rne_mono in Hu. rewrite rne_Z in Hu.
  rewrite Zle_Qle in Hl, Hu. rewrite pow2_inject in Hl, Hu by lia.
  split; apply Qmult_le_compat_r; try assumption;
    apply Qlt_le_weak, pow2_pos.
Qed.

(** Rounding keeps the order of positive numbers. *)
Lemma round53_pos_mono (x y : Q) :
  0 < x -> x <= y -> round53_pos x <= round53_pos y.
Proof.
  intros Hx Hxy.
  assert (Hy : 0 < y) by (eapply Qlt_le_trans; eassumption).
  destruct (binade_spec Hx) as [Hxl Hxu]. destruct (binade_spec Hy) as [Hyl Hyu].
  assert (He : (binade x <= binade y)%Z).
  { assert (H : pow2 (52 + binade x) < pow2 (53 + binade y)).
    { eapply Qle_lt_trans; [exact Hxl|]. eapply Qle_lt_trans; eassumption. }
    apply pow2_lt_inv in H. lia. }
  destruct (Z.eq_dec (binade x) (binade y)) as [E|N].
  - unfold round53_pos. cbv zeta. rewrite E.
    apply Qmult_le_compat_r; [|apply Qlt_le_weak, pow2_pos].
    rewrite <- Zle_Qle. apply rne_mono.
    apply Qmult_le_compat_r; [exact Hxy|].
    apply Qlt_le_weak, Qinv_lt_0_compat, pow2_pos.
  - destruct (round53_pos_bounds Hx) as [_ Hu].
    destruct (round53_pos_bounds Hy) as [Hl _].
    eapply Qle_trans; [exact Hu|]. eapply Qle_trans; [|exact Hl].
    apply pow2_le. lia.
Qed.

(** Rounding a positive number changes it by at most one part in 2^53. *)
Lemma round53_pos_error (x : Q) :
  0 < x ->
  x - x * pow2 (-53) <= round53_pos x /\ round53_pos x <= x + x * pow2 (-53).
Proof.
  intros Hx. destruct (binade_spec Hx) as [Hl _].
  destruct (rne_error (x / pow2 (binade x))) as [El Eu].
  pose proof (pow2_pos (binade x)) as Hp.
  assert (Hhalf : (1 # 2) * pow2 (binade x) <= x * pow2 (-53)).
  { apply Qle_trans with (pow2 (52 + binade x) * pow2 (-53)).
    - rewrite <- pow2_add. replace (52 + binade x + -53)%Z with (-1 + binade x)%Z by lia.
      rewrite pow2_add. change (pow2 (-1)) with (1 # 2). apply Qle_refl.
    - apply Qmult_le_compat_r; [exact Hl | apply Qlt_le_weak, pow2_pos]. }
  unfold round53_pos. cbv zeta.
  apply (Qmult_le_compat_r _ _ (pow2 (binade x))) in El; [|apply Qlt_le_weak, Hp].
  apply (Qmult_le_compat_r _ _ (pow2 (binade x))) in Eu; [|apply Qlt_le_weak, Hp].
  pose proof (scaled_back x (binade x)) as Hb.
  set (y := x / pow2 (binade x)) in *. set (p := pow2 (binade x)) in *.
  set (m := inject_Z (rne y)) in *. set (h := x * pow2 (-53)) in *.
  assert (E1 : (y - (1 # 2)) * p == x - (1 # 2) * p) by (rewrite <- Hb; ring).
  assert (E2 : (y + (1 # 2)) * p == x + (1 # 2) * p) by (rewrite <- Hb; ring).
  rewrite E1 in El. rewrite E2 in Eu. clearbody y p m h. split; lra.
Qed.

Lemma round53_pos_positive (x : Q) : 0 < x -> 0 < round53_pos x.
Proof.
  intros Hx. destruct (round53_pos_bounds Hx) as [Hl _].
  eapply Qlt_le_trans; [apply pow2_pos | exact Hl].
Qed.

(** What [round53] does, by the sign of its argument. *)
Lemma round53_cases (x : Q) :
  (x == 0 /\ round53 x = 0) \/
  (0 < x /\ 0 < Qred x /\ round53 x == round53_pos (Qred x)) \/
  (x < 0 /\ 0 < - Qred x /\ round53 x == - round53_pos (- Qred x)).
Proof.
  unfold round53. cbv zeta. pose proof (Qred_correct x) as Hr.
  destruct (Qcompare_spec (Qred x) 0) as [H|H|H].
  - left. split; [rewrite <- Hr; exact H | reflexivity].
  - right. right. split; [rewrite <- Hr; exact H|]. split; [lra|].
    apply Qred_correct.
  - right. left. split; [rewrite <- Hr; exact H|]. split; [exact H|].
    apply Qred_correct.
Qed.

Lemma round53_proper (x y : Q) : x == y -> round53 x = round53 y.
Proof. intros H. unfold round53. rewrite (Qred_complete _ _ H). reflexivity. Qed.

(** Rounding keeps the sign. *)
Lemma round53_sign (x : Q) :
  (0 < x -> 0 < round53 x) /\ (x < 0 -> round53 x < 0) /\
  (x == 0 -> round53 x = 0).
Proof.
  destruct (round53_cases x) as [[E R] | [(Hx & Hr & R) | (Hx & Hr & R)]].
  - rewrite R. repeat split; intros; try reflexivity; lra.
  - pose proof (round53_pos_positive Hr).
    split; [intros _; rewrite R; lra|]. split; intros; exfalso; lra.
  - pose proof (round53_pos_positive Hr).
    split; [intros; exfalso; lra|]. split; [intros _; rewrite R; lra|].
    intros; exfalso; lra.
Qed.

(** Rounding to nearest is monotone. *)
Lemma round53_mono (x y : Q) : x <= y -> round53 x <= round53 y.
Proof.
  intros Hxy.
  destruct (round53_cases x) as [[Ex Rx] | [(Hx & Hrx & Rx) | (Hx & Hrx & Rx)]];
    destruct (round53_cases y) as [[Ey Ry] | [(Hy & Hry & Ry) | (Hy & Hry & Ry)]];
    rewrite Rx, Ry; try (exfalso; lra).
  - apply Qle_refl.
  - apply Qlt_le_weak, round53_pos_positive, Hry.
  - apply round53_pos_mono; [exact Hrx|]. rewrite !Qred_correct. exact Hxy.
  - pose proof (round53_pos_positive Hrx). lra.
  - pose proof (round53_pos_positive Hrx). pose proof (round53_pos_positive Hry).
    lra.
  - apply Qopp_le_compat. apply round53_pos_mono; [exact Hry|].
    rewrite !Qred_correct. lra.
Qed.

(** The relative error of one rounding. *)
Lemma round53_error (x : Q) :
  0 <= x ->
  x - x * pow2 (-53) <= round53 x /\ round53 x <= x + x * pow2 (-53).
Proof.
  intros Hx.
  destruct (round53_cases x) as [[E R] | [(Hp & Hr & R) | (Hn & _)]].
  - rewrite R, E. split; lra.
  - pose proof (round53_pos_error Hr) as [H1 H2]. rewrite R.
    set (r := round53_pos (Qred x)) in *. clearbody r.
    rewrite !Qred_correct in H1, H2. split; assumption.
  - exfalso. lra.
Qed.

End Rounding.

(** ** Arithmetic of the compression ratio *)

Section Ratio.

Local Notation ratio s o :=
  (float_mul (float_sub 1 (int_truediv (Z.of_nat s) (Z.of_nat o))) 100).

Lemma compression_ratio_defined (s o : nat) :
  (0 < o)%nat -> compression_ratio s o = Ok (ratio s o).
Proof. destruct o; [lia | reflexivity]. Qed.

Lemma compression_ratio_ok_inv (s o : nat) (q : Q) :
  compression_ratio s o = Ok q -> (0 < o)%nat /\ q = ratio s o.
Proof.
  destruct o; [discriminate|].
  intros H. split; [lia|]. unfold compression_ratio in H. congruence.
Qed.

(** The exact quotient of two word counts, and how far from 1 and from 0
    it stays when the divisor has at most 53 bits. *)
Lemma quotient_of_counts (s o : nat) :
  (0 < o)%nat ->
  0 <= inject_Z (Z.of_nat s) / inject_Z (Z.of_nat o) /\
  ((s <= o)%nat -> inject_Z (Z.of_nat s) / inject_Z (Z.of_nat o) <= 1) /\
  ((s < o)%nat -> (Z.of_nat o <= 2 ^ 53)%Z ->
   inject_Z (Z.of_nat s) / inject_Z (Z.of_nat o)
   <= 9007199254740991 # 9007199254740992) /\
  ((0 < s)%nat -> (Z.of_nat o <= 2 ^ 53)%Z ->
   (1 # 9007199254740992) <= inject_Z (Z.of_nat s) / inject_Z (Z.of_nat o)) /\
  ((o < s)%nat -> (Z.of_nat o < 2 ^ 53)%Z ->
   9007199254740992 # 9007199254740991
   <= inject_Z (Z.of_nat s) / inject_Z (Z.of_nat o)).
Proof.
  intros Ho.
  assert (Hpos : 0 < inject_Z (Z.of_nat o)).
  { change 0 with (inject_Z 0). rewrite <- Zlt_Qlt. lia. }
  assert (Hs : 0 <= inject_Z (Z.of_nat s)).
  { change 0 with (inject_Z 0). rewrite <- Zle_Qle. lia. }
  repeat split.
  - apply Qle_shift_div_l; [exact Hpos | lra].
  - intros H. apply Qle_shift_div_r; [exact Hpos|].
    rewrite Qmult_1_l, <- Zle_Qle. lia.
  - intros H Hb. apply Qle_shift_div_r; [exact Hpos|].
    assert (H1 : inject_Z (Z.of_nat s) + 1 <= inject_Z (Z.of_nat o)).
    { change 1 with (inject_Z 1). rewrite <- inject_Z_plus, <- Zle_Qle. lia. }
    assert (H2 : inject_Z (Z.of_nat o) <= inject_Z (2 ^ 53))
      by (rewrite <- Zle_Qle; exact Hb).
    change (inject_Z (2 ^ 53)) with (9007199254740992 # 1) in H2. lra.
  - intros H Hb. apply Qle_shift_div_l; [exact Hpos|].
    assert (H1 : 1 <= inject_Z (Z.of_nat s)).
    { change 1 with (inject_Z 1). rewrite <- Zle_Qle. lia. }
    assert (H2 : inject_Z (Z.of_nat o) <= inject_Z (2 ^ 53))
      by (rewrite <- Zle_Qle; exact Hb).
    change (inject_Z (2 ^ 53)) with (9007199254740992 # 1) in H2. lra.
  - intros H Hb. apply Qle_shift_div_l; [exact Hpos|].
    assert (H1 : inject_Z (Z.of_nat o) + 1 <= inject_Z (Z.of_nat s)).
    { change 1 with (inject_Z 1). rewrite <- inject_Z_plus, <- Zle_Qle. lia. }
    assert (H2 : inject_Z (Z.of_nat o) <= inject_Z (2 ^ 53 - 1))
      by (rewrite <- Zle_Qle; lia).
    change (inject_Z (2 ^ 53 - 1)) with (9007199254740991 # 1) in H2. lra.
Qed.

(** Equal counts: every step is exact. *)
Lemma ratio_equal_counts (o : nat) : (0 < o)%nat -> ratio o o = 0.
Proof.
  intros Ho. unfold int_truediv.
  assert (E : inject_Z (Z.of_nat o) / inject_Z (Z.of_nat o) == 1).
  { apply Qmult_inv_r. change 0 with (inject_Z 0).
    rewrite inject_Z_injective. lia. }
  rewrite (round53_proper E). reflexivity.
Qed.

(** Fewer words than the original: the quotient rounds to a float below
    1, the difference is at least 2^-53 and the product is positive. *)
Lemma ratio_above_0 (s o : nat) :
  (s < o)%nat -> (Z.of_nat o <= 2 ^ 53)%Z -> 0 < ratio s o.
Proof.
  intros Hso Hb.
  destruct (@quotient_of_counts s o ltac:(lia)) as (_ & _ & Hx & _).
  specialize (Hx Hso Hb). unfold float_mul, float_sub, int_truediv.
  set (x := inject_Z (Z.of_nat s) / inject_Z (Z.of_nat o)) in *. clearbody x.
  apply round53_mono in Hx.
  change (round53 (9007199254740991 # 9007199254740992))
    with (9007199254740991 # 9007199254740992) in Hx.
  set (q1 := round53 x) in *. clearbody q1.
  assert (Hd : (1 # 9007199254740992) <= 1 - q1) by lra.
  apply round53_mono in Hd.
  change (round53 (1 # 9007199254740992)) with (1 # 9007199254740992) in Hd.
  set (q2 := round53 (1 - q1)) in *. clearbody q2.
  apply round53_sign. lra.
Qed.

(** Three roundings, each of at most one part in 2^53, of numbers that
    do not exceed 100. *)
Lemma ratio_error (s o : nat) :
  (0 < o)%nat -> (s <= o)%nat ->
  let exact := (1 - inject_Z (Z.of_nat s) / inject_Z (Z.of_nat o)) * 100 in
  exact - (1 # 17592186044416) <= ratio s o /\
  ratio s o <= exact + (1 # 17592186044416).
Proof.
  intros Ho Hso.
  destruct (@quotient_of_counts s o Ho) as (H0 & H1 & _).
  specialize (H1 Hso). cbv zeta. unfold float_mul, float_sub, int_truediv.
  set (x := inject_Z (Z.of_nat s) / inject_Z (Z.of_nat o)) in *. clearbody x.
  destruct (round53_error H0) as [L1 U1].
  pose proof (round53_mono H1) as M1. change (round53 1) with 1 in M1.
  set (q1 := round53 x) in *. clearbody q1.
  assert (Hd : 0 <= 1 - q1) by lra.
  destruct (round53_error Hd) as [L2 U2].
  set (q2 := round53 (1 - q1)) in *. clearbody q2.
  change (pow2 (-53)) with (1 # 9007199254740992) in *.
  assert (Hp : 0 <= q2 * 100) by lra.
  destruct (round53_error Hp) as [L3 U3].
  set (q3 := round53 (q2 * 100)) in *. clearbody q3.
  change (pow2 (-53)) with (1 # 9007199254740992) in *.
  split; lra.
Qed.

Lemma ratio_at_most_100 (s o : nat) : (0 < o)%nat -> ratio s o <= 100.
Proof.
  intros Ho. destruct (@quotient_of_counts s o Ho) as (H0 & _).
  unfold float_mul, float_sub, int_truediv.
  set (x := inject_Z (Z.of_nat s) / inject_Z (Z.of_nat o)) in *. clearbody x.
  apply round53_mono in H0. change (round53 0) with 0 in H0.
  set (q1 := round53 x) in *. clearbody q1.
  assert (Hd : 1 - q1 <= 1) by lra.
  apply round53_mono in Hd. change (round53 1) with 1 in Hd.
  set (q2 := round53 (1 - q1)) in *. clearbody q2.
  assert (Hp : q2 * 100 <= 100) by lra.
  apply round53_mono in Hp. change (round53 100) with 100 in Hp. exact Hp.
Qed.

Lemma ratio_no_words : forall o : nat, (0 < o)%nat -> ratio 0 o = 100.
Proof.
  intros o Ho. unfold int_truediv.
  assert (E : inject_Z (Z.of_nat 0) / inject_Z (Z.of_nat o) == 0).
  { unfold Qdiv. apply Qmult_0_l. }
  rewrite (round53_proper E). reflexivity.
Qed.

Lemma ratio_below_100 (s o : nat) :
  (0 < o)%nat -> (0 < s)%nat -> (Z.of_nat o <= 2 ^ 53)%Z -> ratio s o < 100.
Proof.
  intros Ho Hs Hb.
  destruct (@quotient_of_counts s o Ho) as (_ & _ & _ & Hx & _).
  specialize (Hx Hs Hb). unfold float_mul, float_sub, int_truediv.
  set (x := inject_Z (Z.of_nat s) / inject_Z (Z.of_nat o)) in *. clearbody x.
  apply round53_mono in Hx.
  change (round53 (1 # 9007199254740992)) with (1 # 9007199254740992) in Hx.
  set (q1 := round53 x) in *. clearbody q1.
  assert (Hd : 1 - q1 <= 9007199254740991 # 9007199254740992) by lra.
  apply round53_mono in Hd.
  change (round53 (9007199254740991 # 9007199254740992))
    with (9007199254740991 # 9007199254740992) in Hd.
  set (q2 := round53 (1 - q1)) in *. clearbody q2.
  assert (Hp : q2 * 100 <= (9007199254740991 # 9007199254740992) * 100) by lra.
  apply round53_mono in Hp.
  eapply Qle_lt_trans; [exact Hp|]. vm_compute. reflexivity.
Qed.

Lemma ratio_negative (s o : nat) :
  (0 < o)%nat -> (o < s)%nat -> (Z.of_nat o < 2 ^ 53)%Z -> ratio s o < 0.
Proof.
  intros Ho Hs Hb.
  destruct (@quotient_of_counts s o Ho) as (_ & _ & _ & _ & Hx).
  specialize (Hx Hs Hb). unfold float_mul, float_sub, int_truediv.
  set (x := inject_Z (Z.of_nat s) / inject_Z (Z.of_nat o)) in *. clearbody x.
  apply round53_mono in Hx.
  assert (C : round53 (9007199254740992 # 9007199254740991)
              = (4503599627370497 # 4503599627370496)) by (vm_compute; reflexivity).
  rewrite C in Hx.
  set (q1 := round53 x) in *. clearbody q1.
  assert (Hd : 1 - q1 < 0) by lra.
  apply round53_sign in Hd.
  set (q2 := round53 (1 - q1)) in *. clearbody q2.
  apply round53_sign. lra.
Qed.


(** Not more words than the original: no step goes below zero. *)
Lemma ratio_nonneg (s o : nat) :
  (0 < o)%nat -> (s <= o)%nat -> 0 <= ratio s o.
Proof.
  intros Ho Hso. destruct (@quotient_of_counts s o Ho) as (_ & H1 & _).
  specialize (H1 Hso). unfold float_mul, float_sub, int_truediv.
  set (x := inject_Z (Z.of_nat s) / inject_Z (Z.of_nat o)) in *. clearbody x.
  apply round53_mono in H1. change (round53 1) with 1 in H1.
  set (q1 := round53 x) in *. clearbody q1.
  assert (Hd : 0 <= 1 - q1) by lra.
  apply round53_mono in Hd. change (round53 0) with 0 in Hd.
  set (q2 := round53 (1 - q1)) in *. clearbody q2.
  assert (Hp : 0 <= q2 * 100) by lra.
  apply round53_mono in Hp. change (round53 0) with 0 in Hp. exact Hp.
Qed.

(** What [.1f] prints for a float that is not negative: no sign, and the
    tenth nearest to it. *)
Lemma format_1f_nonneg (q : Q) :
  0 <= q ->
  format_1f q
  = str_of_nat (Z.to_nat (rne (q * 10) / 10)) ++ [46%N]
    ++ str_of_nat (Z.to_nat (rne (q * 10) mod 10)).
Proof.
  intros Hq. unfold format_1f. cbv zeta.
  assert (Hs : (Qnum q <? 0)%Z = false).
  { apply Z.ltb_ge. unfold Qle in Hq. simpl in Hq. lia. }
  rewrite Hs.
  assert (E : Qabs q * 10 == q * 10) by (rewrite (Qabs_pos q Hq); reflexivity).
  rewrite (rne_proper E). reflexivity.
Qed.

Lemma tenths_error (q : Q) :
  q - (1 # 20) <= inject_Z (rne (q * 10)) / 10 /\
  inject_Z (rne (q * 10)) / 10 <= q + (1 # 20).
Proof.
  destruct (rne_error (q * 10)) as [H1 H2].
  set (n := inject_Z (rne (q * 10))) in *. clearbody n. split.
  - apply Qle_shift_div_l; [reflexivity | lra].
  - apply Qle_shift_div_r; [reflexivity | lra].
Qed.

End Ratio.

(** ** The claims about validation, metrics and the ratio *)

Section Claims.

Context {L : Libraries}.

(** C2.  When the text is blank (empty or whitespace only), pressing the
    button yields the warning "Please enter or upload some text first."
    and nothing else: the handler returns normally, the only event is
    that warning, so neither [get_text_metrics] nor [translate_text] nor
    the summarizer is called, and the world and the cache are left as
    they were.  This holds whether or not a model is loaded. *)
Theorem blank_input_rejected
    (summarizer : option summarization_pipeline) (t : text)
    (min_len max_len : Z) (target_lang : text) (s : store) :
  blank t ->
  summarize_button summarizer t min_len max_len target_lang s
  = (Ok tt, s, [empty_input_message]).
Proof.
  intros Hb. apply validation_rejects_iff in Hb.
  unfold summarize_button. rewrite Hb. reflexivity.
Qed.

(** C5.  For every non-empty text, whenever [get_text_metrics] returns a
    dictionary its [word_count] is the number of whitespace-separated
    tokens of the text, and it does return one as soon as the four
    library calls it makes return. *)
Theorem word_count_is_token_count (t : text) (s : store) :
  t <> [] ->
  (forall m s' l,
     get_text_metrics t s = (Ok m, s', l) ->
     word_count m = List.length (split_on_whitespace t)) /\
  (forall sentences flesch smog lang w',
     TextBlob_sentences t = Ok sentences ->
     flesch_reading_ease t = Ok flesch ->
     smog_index t = Ok smog ->
     detect t (the_world s) = (Ok lang, w') ->
     exists m s' l,
       get_text_metrics t s = (Ok m, s', l) /\
       word_count m = List.length (split_on_whitespace t)).
Proof.
  intros _. split.
  - intros m s' l H.
    destruct (get_text_metrics_run t s) as (r & s1 & E & _ & W).
    rewrite E in H. injection H as -> _ _.
    rewrite <- split_is_split_on_whitespace. apply W; reflexivity.
  - intros sentences flesch smog lang w' H1 H2 H3 H4.
    unfold get_text_metrics, traced, bind, pure_call, world_call, ret.
    rewrite H1, H2, H3, H4. eexists _, _, _. split; [reflexivity|].
    simpl. rewrite split_is_split_on_whitespace. reflexivity.
Qed.

(** C6, as the code has it.  In a request that passes validation and
    whose five calls return, the handler shows the metric "Compression
    Ratio" exactly once, and what it shows is the binary64 result of
    (1 - summary word count / original word count) * 100 printed with
    one decimal.  For a summary that is not longer than the original the
    result is within 2^-44 of the exact value, it is not negative, and
    the decimal printed is the tenth nearest to it.  The result is
    strictly positive when the summary has fewer words than the original
    and the original has at most 2^53 words; it is exactly 0, printed
    "0.0%", when both have as many. *)
Theorem displayed_compression_ratio
    (p : summarization_pipeline) (t : text) (min_len max_len : Z)
    (target_lang : text) (s s1 : store) (l : list event)
    (m1 m2 : metrics) (ts : text) :
  negb (truthy (strip t)) = false ->
  pipeline_calls p t min_len max_len target_lang s = (Ok (m1, m2, ts), s1, l) ->
  exists q,
    compression_ratio (word_count m2) (word_count m1) = Ok q /\
    (forall v,
       In (UI (Metric (lit "Compression Ratio") v))
          (snd (summarize_button (Some p) t min_len max_len target_lang s))
       <-> v = format_1f q ++ lit "%") /\
    ((word_count m2 <= word_count m1)%nat ->
       exact_ratio (word_count m2) (word_count m1) - (1 # 17592186044416) <= q /\
       q <= exact_ratio (word_count m2) (word_count m1) + (1 # 17592186044416) /\
       0 <= q /\
       format_1f q
       = str_of_nat (Z.to_nat (rne (q * 10) / 10)) ++ [46%N]
         ++ str_of_nat (Z.to_nat (rne (q * 10) mod 10)) /\
       q - (1 # 20) <= inject_Z (rne (q * 10)) / 10 /\
       inject_Z (rne (q * 10)) / 10 <= q + (1 # 20)) /\
    ((word_count m2 < word_count m1)%nat ->
     (Z.of_nat (word_count m1) <= 2 ^ 53)%Z -> 0 < q) /\
    (word_count m2 = word_count m1 ->
       q = 0 /\ format_1f q ++ lit "%" = lit "0.0%").
Proof.
  intros Hv Hc.
  assert (Hpos : (0 < word_count m1)%nat).
  { destruct (pipeline_calls_run p t min_len max_len target_lang s)
      as (r & s' & l' & E & _ & _ & W).
    rewrite Hc in E. injection E as <- _ _.
    rewrite (W m1 m2 ts eq_refl).
    apply accepted_text_has_words; exact Hv. }
  pose proof (compression_ratio_defined (word_count m2) Hpos) as Hq.
  eexists. split; [exact Hq|]. split; [|split; [|split]].
  - intros v. unfold summarize_button. rewrite Hv.
    unfold try_except, report_failure, render_results.
    unfold bind, emit, pure_call. rewrite Hc, Hq.
    set (shown := format_1f _ ++ lit "%"). clearbody shown.
    assert (Hl : forall v', ~ In (UI (Metric (lit "Compression Ratio") v')) l).
    { destruct (pipeline_calls_run p t min_len max_len target_lang s)
        as (r & s' & l' & E & Hrun & _).
      rewrite Hc in E. injection E as <- _ <-.
      intros v' Hin. inversion Hrun; subst; simpl in Hin;
        repeat (destruct Hin as [Hin|Hin]; try discriminate); assumption. }
    destruct (get_download_link ts (lit "summary.txt")) as [href|e];
      cbn [snd]; rewrite ?in_app_iff; cbn [In]; (split; [intros Hin | intros ->]);
      try tauto;
      repeat match goal with
             | H : _ \/ _ |- _ => destruct H as [H|H]
             | H : False |- _ => contradiction
             | H : In _ l |- _ => exfalso; exact (Hl _ H)
             | H : UI _ = UI _ |- _ =>
                 first [discriminate H | injection H as <-; reflexivity]
             end.
  - intros Hle.
    destruct (@ratio_error (word_count m2) (word_count m1) Hpos Hle) as [E1 E2].
    pose proof (@ratio_nonneg (word_count m2) (word_count m1) Hpos Hle) as H0.
    split; [exact E1|]. split; [exact E2|]. split; [exact H0|].
    split; [apply format_1f_nonneg; exact H0 | apply tenths_error].
  - intros Hlt Hb. apply ratio_above_0; assumption.
  - intros E. rewrite E, (ratio_equal_counts Hpos).
    split; reflexivity.
Qed.

(** C7, as the code has it.  Every text that passes the non-blank check
    has at least one whitespace-separated token (punctuation counts as a
    token), so the divisor of the compression ratio is never zero: the
    ratio is defined for the original of every accepted request, and
    whenever the five calls return, the division the handler performs
    does not raise. *)
Theorem accepted_text_divisor_nonzero (t : text) :
  negb (truthy (strip t)) = false ->
  (1 <= List.length (split t))%nat /\
  (forall summary_wc, exists q,
     compression_ratio summary_wc (List.length (split t)) = Ok q) /\
  (forall p min_len max_len target_lang s s1 l m1 m2 ts,
     pipeline_calls p t min_len max_len target_lang s
     = (Ok (m1, m2, ts), s1, l) ->
     exists q, compression_ratio (word_count m2) (word_count m1) = Ok q).
Proof.
  intros Hv. pose proof (accepted_text_has_words t Hv) as Hw.
  split; [exact Hw|]. split.
  - intros n. eexists. apply compression_ratio_defined. lia.
  - intros p min_len max_len target_lang s s1 l m1 m2 ts Hc.
    destruct (pipeline_calls_run p t min_len max_len target_lang s)
      as (r & s' & l' & E & _ & _ & W).
    rewrite Hc in E. injection E as <- _ _.
    eexists. apply compression_ratio_defined.
    rewrite (W m1 m2 ts eq_refl). lia.
Qed.

End Claims.

(** ** Facts about traces *)

Section TraceFacts.

Lemma filter_all (A : Type) (f : A -> bool) (l : list A) :
  Forall (fun x => f x = true) l -> filter f l = l.
Proof.
  induction 1 as [|x l Hx _ IH]; [reflexivity|].
  simpl. rewrite Hx, IH. reflexivity.
Qed.

Lemma filter_none (A : Type) (f : A -> bool) (l : list A) :
  Forall (fun x => f x = false) l -> filter f l = [].
Proof.
  induction 1 as [|x l Hx _ IH]; [reflexivity|].
  simpl. rewrite Hx, IH. reflexivity.
Qed.

Lemma ui_is_no_adapter_event (l : list event) :
  Forall (fun e => is_ui e = true) l ->
  Forall (fun e => is_adapter_event e = false) l.
Proof.
  apply Forall_impl. intros [| | | |u]; simpl; intros H;
    try discriminate; reflexivity.
Qed.

Lemma ui_is_no_call (l : list event) :
  Forall (fun e => is_ui e = true) l ->
  Forall (fun e => is_adapter_call e = false) l.
Proof.
  apply Forall_impl. intros [| | | |u]; simpl; intros H;
    try discriminate; reflexivity.
Qed.

Lemma ui_is_no_load (l : list event) :
  Forall (fun e => is_ui e = true) l ->
  Forall (fun e => is_load e = false) l.
Proof.
  apply Forall_impl. intros [| | | |u]; simpl; intros H;
    try discriminate; reflexivity.
Qed.

Lemma pipeline_run_adapter_events t min_len max_len target_lang rc calls :
  pipeline_run t min_len max_len target_lang rc calls ->
  Forall (fun e => is_adapter_event e = true) calls.
Proof. intros H; inversion H; subst; repeat constructor. Qed.

(** A raise that directly follows its call, found in a trace whose tail
    is output only, lies in the front part. *)
Lemma raise_in_front (front rest pre post : list event) (c : call) (e : exn) :
  Forall (fun ev => is_ui ev = true) rest ->
  front ++ rest = pre ++ Call c :: Raised e :: post ->
  exists post',
    front = pre ++ Call c :: Raised e :: post' /\ post = post' ++ rest.
Proof.
  intros Hui. revert front.
  induction pre as [|a pre IH]; intros front H.
  - destruct front as [|x [|y front]]; simpl in H.
    + subst rest. inversion Hui; discriminate.
    + injection H as -> H. subst rest. inversion Hui; discriminate.
    + injection H as -> -> H. exists front. split; [reflexivity | auto].
  - destruct front as [|x front]; simpl in H.
    + exfalso. subst rest. rewrite Forall_forall in Hui.
      assert (Hin : In (Call c) (a :: pre ++ Call c :: Raised e :: post))
        by (right; apply in_or_app; right; left; reflexivity).
      apply Hui in Hin. discriminate.
    + injection H as -> H. destruct (IH front H) as (post' & -> & ->).
      exists post'. split; reflexivity.
Qed.

(** In the events of the five calls a raise is the last event, and it is
    the exception the sequence ends with. *)
Lemma pipeline_run_raise_last t min_len max_len target_lang rc calls
    (first : event) (pre post : list event) (c : call) (e : exn) :
  is_raised first = false ->
  pipeline_run t min_len max_len target_lang rc calls ->
  first :: calls = pre ++ Call c :: Raised e :: post ->
  post = [] /\ rc = Raise e.
Proof.
  intros Hf Hrun H.
  inversion Hrun; subst; clear Hrun;
    repeat (destruct pre as [|? pre]; simpl in H;
            [ try discriminate H; injection H; intros; subst;
              try discriminate; auto
            | injection H as <- H ]);
    try discriminate H; destruct pre; discriminate H.
Qed.

Lemma pipeline_run_raised_outcome t min_len max_len target_lang rc calls e :
  pipeline_run t min_len max_len target_lang rc calls ->
  In (Raised e) calls -> rc = Raise e.
Proof.
  intros Hrun Hin. inversion Hrun; subst; simpl in Hin;
    repeat (destruct Hin as [Hin|Hin]; try discriminate);
    try contradiction; injection Hin as ->; reflexivity.
Qed.

Lemma pipeline_run_calls t min_len max_len target_lang rc calls :
  pipeline_run t min_len max_len target_lang rc calls ->
  exists en result rest,
    five_calls t min_len max_len target_lang en result
    = filter is_adapter_call calls ++ rest /\
    ((forall e, rc <> Raise e) -> rest = []).
Proof.
  intros Hrun. inversion Hrun; subst; cbn [filter is_adapter_call];
    unfold five_calls.
  - exists [], [], (tl (five_calls t min_len max_len target_lang [] [])).
    split; [reflexivity | intros Hn; exfalso; exact (Hn _ eq_refl)].
  - exists [], [], (tl (tl (five_calls t min_len max_len target_lang [] []))).
    split; [reflexivity | intros Hn; exfalso; exact (Hn _ eq_refl)].
  - exists en, [],
      (tl (tl (tl (five_calls t min_len max_len target_lang en [])))).
    split; [reflexivity | intros Hn; exfalso; exact (Hn _ eq_refl)].
  - exists en, [],
      (tl (tl (tl (five_calls t min_len max_len target_lang en [])))).
    split; [reflexivity | intros Hn; exfalso; exact (Hn _ eq_refl)].
  - exists en, result, [Call (Cget_text_metrics result)].
    split; [reflexivity | intros Hn; exfalso; exact (Hn _ eq_refl)].
  - exists en, result, [].
    split; [reflexivity | intros Hn; exfalso; exact (Hn _ eq_refl)].
  - exists en, result, []. split; [reflexivity | reflexivity].
Qed.

End TraceFacts.

(** ** The claims about a request *)

Section RequestClaims.

Context {L : Libraries}.

(** C1, as the code has it.  For every request that passes validation,
    the adapter events are those of the five calls in the order metrics
    of the original text, translation of the original text to English,
    summarization of what that returned, translation of the summary
    text to the target language, metrics of the untranslated summary
    text; each call is made on what the earlier ones returned and the
    sequence stops at the first call that raises (or at a summarizer
    output without a first 'summary_text').  The calls made are always
    a prefix of these five, and all five are made whenever the sequence
    does not end in an exception. *)
Theorem pipeline_call_order
    (p : summarization_pipeline) (t : text) (min_len max_len : Z)
    (target_lang : text) (s : store) :
  negb (truthy (strip t)) = false ->
  exists rc en result rest,
    pipeline_run t min_len max_len target_lang rc
      (filter is_adapter_event
         (snd (summarize_button (Some p) t min_len max_len target_lang s))) /\
    five_calls t min_len max_len target_lang en result
    = filter is_adapter_call
        (snd (summarize_button (Some p) t min_len max_len target_lang s))
      ++ rest /\
    ((forall e, rc <> Raise e) -> rest = []).
Proof.
  intros Hv.
  destruct (summarize_button_run p t min_len max_len target_lang s Hv)
    as (rc & s' & calls & out & E & Hrun & _ & _ & Hui & _).
  rewrite E. cbn [snd filter is_adapter_event is_adapter_call].
  rewrite !filter_app.
  rewrite (filter_none _ (ui_is_no_adapter_event Hui)).
  rewrite (filter_none _ (ui_is_no_call Hui)).
  rewrite !app_nil_r.
  rewrite (filter_all _ (pipeline_run_adapter_events Hrun)).
  destruct (pipeline_run_calls Hrun) as (en & result & rest & H5 & Hrest).
  exists rc, en, result, rest. auto.
Qed.

(** C3.  In a request that passes validation, when an adapter call (in
    particular the summarization call or either translation call) ends
    in an exception, the handler catches it: the handler returns
    normally, and everything that follows the raise is the error
    message carrying [str(e)] and the hint to try again or check the
    connection.  No adapter is called after the raise, so the failed
    call is not retried. *)
Theorem adapter_exception_caught
    (p : summarization_pipeline) (t : text) (min_len max_len : Z)
    (target_lang : text) (s : store)
    (pre post : list event) (c : call) (e : exn) :
  negb (truthy (strip t)) = false ->
  snd (summarize_button (Some p) t min_len max_len target_lang s)
  = pre ++ Call c :: Raised e :: post ->
  fst (fst (summarize_button (Some p) t min_len max_len target_lang s)) = Ok tt /\
  post = failure_report e /\
  filter is_adapter_call post = [].
Proof.
  intros Hv Hsplit.
  destruct (summarize_button_run p t min_len max_len target_lang s Hv)
    as (rc & s' & calls & rest & E & Hrun & _ & _ & Hui & Hrest).
  rewrite E in Hsplit |- *. cbn [fst snd] in Hsplit |- *.
  split; [reflexivity|].
  change (UI (Spinner (lit "Analyzing and summarizing...")) :: calls ++ rest)
    with ((UI (Spinner (lit "Analyzing and summarizing...")) :: calls) ++ rest)
    in Hsplit.
  destruct (@raise_in_front _ _ _ _ _ _ Hui Hsplit) as (post' & Hfront & ->).
  destruct (@pipeline_run_raise_last _ _ _ _ _ _
              (UI (Spinner (lit "Analyzing and summarizing..."))) _ _ _ _
              eq_refl Hrun Hfront) as (-> & ->).
  cbn [app]. subst rest. split; reflexivity.
Qed.

(** C10.  In a request that passes validation, every adapter event
    comes before every output element other than the spinner: the trace
    is the spinner, then the calls, then output only.  Hence if one of
    the five calls raises, the output of the request is the spinner
    followed by the error message and its hint, and no metric panel,
    compression ratio or summary is shown. *)
Theorem results_rendered_after_calls
    (p : summarization_pipeline) (t : text) (min_len max_len : Z)
    (target_lang : text) (s : store) :
  negb (truthy (strip t)) = false ->
  (exists calls rendered,
     snd (summarize_button (Some p) t min_len max_len target_lang s)
     = UI (Spinner (lit "Analyzing and summarizing...")) :: calls ++ rendered /\
     Forall (fun ev => is_adapter_event ev = true) calls /\
     Forall (fun ev => is_ui ev = true) rendered) /\
  (forall e,
     In (Raised e)
        (snd (summarize_button (Some p) t min_len max_len target_lang s)) ->
     filter is_ui
        (snd (summarize_button (Some p) t min_len max_len target_lang s))
     = UI (Spinner (lit "Analyzing and summarizing...")) :: failure_report e).
Proof.
  intros Hv.
  destruct (summarize_button_run p t min_len max_len target_lang s Hv)
    as (rc & s' & calls & rest & E & Hrun & _ & _ & Hui & Hrest).
  rewrite E. cbn [snd]. split.
  - exists calls, rest. repeat split; [|exact Hui].
    exact (pipeline_run_adapter_events Hrun).
  - intros e [Hin|Hin]; [discriminate|].
    apply in_app_or in Hin. destruct Hin as [Hin|Hin].
    + rewrite (@pipeline_run_raised_outcome _ _ _ _ _ _ _ Hrun Hin) in Hrest. subst rest.
      cbn [filter is_ui]. rewrite filter_app.
      assert (Hno : Forall (fun ev => is_ui ev = false) calls).
      { eapply Forall_impl; [|exact (pipeline_run_adapter_events Hrun)].
        intros [| | | |u]; simpl; intros H; try discriminate; reflexivity. }
      rewrite (filter_none _ Hno). reflexivity.
    + exfalso. rewrite Forall_forall in Hui. apply Hui in Hin. discriminate.
Qed.

End RequestClaims.

(** ** The claims about files, the model and repeated metrics *)

Section ProcessClaims.

Context {L : Libraries}.

Lemma map_res_Forall2 (A B : Type) (f : A -> res B) (l : list A) (ys : list B) :
  map_res f l = Ok ys <-> Forall2 (fun x y => f x = Ok y) l ys.
Proof.
  revert ys. induction l as [|x l IH]; intros ys; simpl.
  - split.
    + intros H; injection H as <-; constructor.
    + intros H; inversion H; reflexivity.
  - destruct (f x) as [y|e] eqn:Ex.
    + destruct (map_res f l) as [ys'|e] eqn:El.
      * split.
        -- intros H; injection H as <-. constructor; [exact Ex|].
           apply IH; reflexivity.
        -- intros H; inversion H as [|? y' ? ys'' Hy Hl]; subst.
           rewrite Ex in Hy; injection Hy as <-.
           apply IH in Hl. injection Hl as <-. reflexivity.
      * split; [discriminate|].
        intros H; inversion H as [|? y' ? ys'' Hy Hl]; subst.
        apply IH in Hl. discriminate.
    + split; [discriminate|].
      intros H; inversion H as [|? y' ? ys'' Hy Hl]; subst.
      rewrite Ex in Hy; discriminate.
Qed.

Lemma text_eqb_eq (a b : text) : text_eqb a b = true <-> a = b.
Proof.
  unfold text_eqb. destruct (list_eq_dec N.eq_dec a b); split;
    intros H; try reflexivity; try assumption; try discriminate; contradiction.
Qed.

Lemma text_eqb_neq (a b : text) : a <> b -> text_eqb a b = false.
Proof.
  intros H. destruct (text_eqb a b) eqn:E; [|reflexivity].
  apply text_eqb_eq in E. contradiction.
Qed.

(** C4.  [read_file] dispatches on the declared type: a plain-text file
    yields its bytes decoded as UTF-8; a PDF yields the texts of its
    pages, in page order, joined by newlines; a DOCX yields the texts of
    its paragraphs, in document order, joined by newlines; any other
    type yields the empty string, returned normally. *)
Theorem read_file_dispatch (file : uploaded_file) :
  (file_type file = lit "text/plain" ->
   read_file file = utf8_decode (file_data file)) /\
  (file_type file = lit "application/pdf" ->
   forall pages texts,
     fitz_open (file_data file) (lit "pdf") = Ok pages ->
     Forall2 (fun page x => get_text page = Ok x) pages texts ->
     read_file file = Ok (join [10%N] texts)) /\
  (file_type file
   = lit "application/vnd.openxmlformats-officedocument.wordprocessingml.document" ->
   forall paragraphs,
     docx_Document (file_data file) = Ok paragraphs ->
     read_file file = Ok (join [10%N] (map paragraph_text paragraphs))) /\
  (file_type file <> lit "text/plain" ->
   file_type file <> lit "application/pdf" ->
   file_type file
   <> lit "application/vnd.openxmlformats-officedocument.wordprocessingml.document" ->
   read_file file = Ok []).
Proof.
  unfold read_file. repeat split.
  - intros ->. reflexivity.
  - intros -> pages texts Ho Hp. cbn [text_eqb].
    rewrite (text_eqb_neq (a := lit "application/pdf") (b := lit "text/plain"))
      by discriminate.
    rewrite (proj2 (text_eqb_eq _ _) eq_refl).
    rewrite Ho. apply map_res_Forall2 in Hp. rewrite Hp. reflexivity.
  - intros -> paragraphs Ho.
    rewrite text_eqb_neq by discriminate.
    rewrite text_eqb_neq by discriminate.
    rewrite (proj2 (text_eqb_eq _ _) eq_refl).
    rewrite Ho. reflexivity.
  - intros H1 H2 H3. rewrite !text_eqb_neq by assumption. reflexivity.
Qed.

(** The body of [load_summarizer] always returns: its [except] clause
    turns every exception into [None]. *)
Lemma load_summarizer_body_run (s : store) :
  exists v s1 l,
    load_summarizer_body s = (Ok v, s1, l) /\
    model_cache s1 = model_cache s /\
    Forall (fun e => is_ui e = true) l.
Proof.
  unfold load_summarizer_body, try_except, bind, world_call, emit, ret.
  destruct (AutoTokenizer_from_pretrained _ (the_world s)) as [[tok|e] w1];
    cbn [the_world model_cache];
    [|eexists _, _, _; split; [reflexivity|]; split;
      [reflexivity | repeat constructor]].
  destruct (AutoModelForSeq2SeqLM_from_pretrained _ w1) as [[model|e] w2];
    cbn [the_world model_cache];
    [|eexists _, _, _; split; [reflexivity|]; split;
      [reflexivity | repeat constructor]].
  destruct (pipeline _ model tok w2) as [[pl|e] w3];
    cbn [the_world model_cache];
    eexists _, _, _; (split; [reflexivity|]); split;
      try reflexivity; repeat constructor.
Qed.

(** With an entry in the cache nothing is loaded. *)
Lemma load_summarizer_cached (s : store) (v : option summarization_pipeline) :
  model_cache s = Some v -> load_summarizer s = (Ok v, s, []).
Proof. intros H. unfold load_summarizer. rewrite H. reflexivity. Qed.

Lemma acquire_text_run (w : widgets) (s : store) :
  exists r l,
    acquire_text w s = (r, s, l) /\
    Forall (fun e => is_ui e = true) l /\
    forall s0, fst (fst (acquire_text w s0)) = r.
Proof.
  unfold acquire_text, bind, pure_call, emit, ret.
  destruct (w_input_mode w).
  - eexists _, _; repeat split. constructor.
  - destruct (w_file_uploader w) as [file|].
    + destruct (read_file file) as [t|e];
        eexists _, _; repeat split; repeat constructor.
    + eexists _, _; repeat split. constructor.
Qed.

(** A run of the script once [load_summarizer] has returned [None]: only
    output is produced, the store stays as loading left it, and a
    request with text ends in the static message. *)
Lemma script_run_without_model (w : widgets) (s s1 : store) (l1 : list event) :
  load_summarizer s = (Ok None, s1, l1) ->
  exists r l2,
    script w s = (r, s1, l1 ++ l2) /\
    Forall (fun e => is_ui e = true) l2 /\
    (w_button w = true ->
     forall s0 t,
       fst (fst (acquire_text w s0)) = Ok t -> ~ blank t ->
       exists pre, l2 = pre ++ [model_failed_message]).
Proof.
  intros Hl. unfold script, bind. rewrite Hl. unfold emit at 1.
  destruct (acquire_text_run w s1) as (r & la & Ea & Hua & Hind).
  rewrite Ea. destruct r as [t|e].
  - destruct (w_button w).
    + unfold summarize_button.
      destruct (negb (truthy (strip t))) eqn:Hv; unfold emit;
        eexists _, _; (split; [reflexivity|]); split.
      * constructor; [reflexivity|].
        apply Forall_app; split; [exact Hua | repeat constructor].
      * intros _ s0 t' Ht Hnb. rewrite Hind in Ht. injection Ht as <-.
        apply validation_rejects_iff in Hv. contradiction.
      * constructor; [reflexivity|].
        apply Forall_app; split; [exact Hua | repeat constructor].
      * intros _ s0 t' Ht Hnb.
        exists (UI (Title (128221%N :: lit "TinyTalk- Your Text summarizer and Translator")) :: la).
        reflexivity.
    + unfold ret. eexists _, _; (split; [reflexivity|]); split.
      * constructor; [reflexivity|]. rewrite app_nil_r. exact Hua.
      * discriminate.
  - eexists _, _; (split; [reflexivity|]); split.
    + constructor; [reflexivity | exact Hua].
    + intros _ s0 t Ht. rewrite Hind in Ht. discriminate.
Qed.

(** All the runs of a process whose cache holds [None]. *)
Lemma process_without_model (ws : list widgets) (s : store) :
  model_cache s = Some None ->
  fst (process ws s) = s /\
  Forall2
    (fun w evs =>
       Forall (fun e => is_ui e = true) evs /\
       (w_button w = true ->
        forall s0 t,
          fst (fst (acquire_text w s0)) = Ok t -> ~ blank t ->
          exists pre, evs = pre ++ [model_failed_message]))
    ws (snd (process ws s)).
Proof.
  intros Hc. induction ws as [|w ws [IHs IHr]]; simpl.
  - split; [reflexivity | constructor].
  - destruct (@script_run_without_model w s s []
                (@load_summarizer_cached s None Hc))
      as (r & l2 & E & Hui & Hreq).
    rewrite E. cbn [app].
    destruct (process ws s) as [s2 runs]. cbn [fst snd] in *.
    split; [exact IHs|]. constructor; [|exact IHr]. split; assumption.
Qed.

Lemma runs_output_only (ws : list widgets) (runs : list (list event))
    (Q : widgets -> list event -> Prop) :
  Forall2 (fun w evs => Forall (fun e => is_ui e = true) evs /\ Q w evs)
          ws runs ->
  Forall (fun e => is_ui e = true) (List.concat runs).
Proof.
  induction 1 as [|w evs ws runs [Hui _] _ IH]; simpl.
  - constructor.
  - apply Forall_app; split; assumption.
Qed.

(** C8.  If loading the model fails when the process first runs the
    script, then over all the runs of the process the model is loaded
    exactly once, no run calls the metrics calculator, the translator or
    the summarizer, and every run in which the button is pressed on a
    non-blank text ends with the static message "Model failed to load.
    Please check your internet connection and try again." *)
Theorem model_load_failure_is_fatal
    (w0 : world) (w : widgets) (ws : list widgets) :
  fst (fst (load_summarizer_body (fresh w0))) = Ok None ->
  List.length
    (filter is_load (List.concat (snd (process (w :: ws) (fresh w0)))))
  = 1%nat /\
  Forall2
    (fun w evs =>
       filter is_adapter_event evs = [] /\
       (w_button w = true ->
        forall s0 t,
          fst (fst (acquire_text w s0)) = Ok t -> ~ blank t ->
          exists pre, evs = pre ++ [model_failed_message]))
    (w :: ws) (snd (process (w :: ws) (fresh w0))).
Proof.
  intros Hfail.
  destruct (load_summarizer_body_run (fresh w0)) as (v & s1 & lb & Eb & _ & Hub).
  rewrite Eb in Hfail. cbn [fst] in Hfail. injection Hfail as ->.
  assert (Hload :
    load_summarizer (fresh w0)
    = (Ok None, {| the_world := the_world s1; model_cache := Some None |},
       LoadModel :: lb)).
  { unfold load_summarizer. cbn [fresh model_cache]. rewrite Eb. reflexivity. }
  destruct (@script_run_without_model w _ _ _ Hload) as (r & l2 & E & Hu2 & Hreq).
  cbn [process]. rewrite E.
  destruct (@process_without_model ws
              {| the_world := the_world s1; model_cache := Some None |} eq_refl)
    as (_ & Hrest).
  destruct (process ws {| the_world := the_world s1; model_cache := Some None |})
    as [s2 runs]. cbn [snd] in *.
  split.
  - cbn [List.concat app filter is_load List.length]. f_equal.
    rewrite !filter_app.
    rewrite (filter_none _ (ui_is_no_load Hub)).
    rewrite (filter_none _ (ui_is_no_load Hu2)).
    rewrite (filter_none _ (ui_is_no_load (@runs_output_only _ _ _ Hrest))).
    reflexivity.
  - constructor.
    + split; [|intros Hb s0 t Ht Hnb].
      * cbn [app filter is_adapter_event]. rewrite filter_app.
        rewrite (filter_none _ (ui_is_no_adapter_event Hub)).
        rewrite (filter_none _ (ui_is_no_adapter_event Hu2)).
        reflexivity.
      * destruct (Hreq Hb s0 t Ht Hnb) as (pre & ->).
        exists ((LoadModel :: lb) ++ pre). rewrite app_assoc. reflexivity.
    + eapply Forall2_impl; [|exact Hrest].
      intros w' evs [Hui Hr]. split; [|exact Hr].
      apply filter_none, ui_is_no_adapter_event, Hui.
Qed.

End ProcessClaims.

(** ** The claims on concrete requests *)

(** C2 on a text of two spaces, a tab and a newline. *)
Lemma blank_input_rejected_witness :
  blank [32; 32; 9; 10]%N /\
  @summarize_button seeded (Some tt) [32; 32; 9; 10]%N 30 60 (lit "es")
    (@fresh seeded online)
  = (Ok tt, @fresh seeded online, [empty_input_message]).
Proof.
  assert (H : blank [32; 32; 9; 10]%N) by (repeat constructor).
  split; [exact H|].
  exact (@blank_input_rejected seeded (Some tt) _ 30 60 (lit "es")
           (@fresh seeded online) H).
Defined.

(** C5 on a text of four words. *)
Lemma word_count_is_token_count_witness :
  fox <> [] /\
  exists m s' l,
    @get_text_metrics seeded fox (@fresh seeded online) = (Ok m, s', l) /\
    word_count m = List.length (split_on_whitespace fox) /\
    word_count m = 4%nat.
Proof.
  assert (H : fox <> []) by discriminate.
  split; [exact H|].
  destruct (@word_count_is_token_count seeded fox (@fresh seeded online) H)
    as [Hall _].
  eexists _, _, _. split; [vm_compute; reflexivity|].
  split; [|reflexivity].
  eapply Hall. vm_compute. reflexivity.
Defined.

(** C7: no text passes the validation with a word count of zero. *)
Lemma no_accepted_text_without_words :
  ~ exists t : text,
      negb (truthy (strip t)) = false /\ List.length (split t) = 0%nat.
Proof.
  intros (t & Hv & Hz). apply accepted_text_has_words in Hv. lia.
Qed.

(** C7 on a text of punctuation and whitespace only: it is accepted and
    has three words. *)
Lemma accepted_text_divisor_nonzero_witness :
  negb (truthy (strip punctuation_only)) = false /\
  List.length (split punctuation_only) = 3%nat /\
  (1 <= List.length (split punctuation_only))%nat.
Proof.
  assert (H : negb (truthy (strip punctuation_only)) = false) by reflexivity.
  split; [exact H|]. split; [reflexivity|].
  exact (proj1 (@accepted_text_divisor_nonzero seeded punctuation_only H)).
Defined.

(** C6 on the four-word text: two of four words are kept, the ratio is
    50 and "50.0%" is shown. *)
Lemma displayed_compression_ratio_witness :
  negb (truthy (strip fox)) = false /\
  exists m1 m2 ts s1 l,
    @pipeline_calls seeded tt fox 30 60 (lit "es") (@fresh seeded online)
    = (Ok (m1, m2, ts), s1, l) /\
    word_count m1 = 4%nat /\ word_count m2 = 2%nat /\
    exists q,
      compression_ratio (word_count m2) (word_count m1) = Ok q /\
      (forall v,
         In (UI (Metric (lit "Compression Ratio") v))
            (snd (@summarize_button seeded (Some tt) fox 30 60 (lit "es")
                    (@fresh seeded online)))
         <-> v = format_1f q ++ lit "%") /\
      ((word_count m2 <= word_count m1)%nat ->
         exact_ratio (word_count m2) (word_count m1) - (1 # 17592186044416) <= q /\
         q <= exact_ratio (word_count m2) (word_count m1) + (1 # 17592186044416) /\
         0 <= q /\
         format_1f q
         = str_of_nat (Z.to_nat (rne (q * 10) / 10)) ++ [46%N]
           ++ str_of_nat (Z.to_nat (rne (q * 10) mod 10)) /\
         q - (1 # 20) <= inject_Z (rne (q * 10)) / 10 /\
         inject_Z (rne (q * 10)) / 10 <= q + (1 # 20)) /\
      ((word_count m2 < word_count m1)%nat ->
       (Z.of_nat (word_count m1) <= 2 ^ 53)%Z -> 0 < q) /\
      (word_count m2 = word_count m1 ->
         q = 0 /\ format_1f q ++ lit "%" = lit "0.0%").
Proof.
  assert (H : negb (truthy (strip fox)) = false) by reflexivity.
  split; [exact H|].
  eexists _, _, _, _, _. split; [vm_compute; reflexivity|].
  split; [reflexivity|]. split; [reflexivity|].
  eapply (@displayed_compression_ratio seeded tt fox 30 60 (lit "es")
            (@fresh seeded online)); [exact H | vm_compute; reflexivity].
Defined.

(** C6: with 29 of 80 words kept the exact value is 63.75 and would be
    printed "63.8"; the script computes the float below it and shows
    "63.7%".  With 9999 of 10000 words kept the ratio is positive and
    "0.0%" is shown. *)
Lemma rounded_ratio_is_not_exact_ratio :
  compression_ratio 29 80 = Ok (8972014882652159 # 140737488355328) /\
  exact_ratio 29 80 == 255 # 4 /\
  ~ (8972014882652159 # 140737488355328) == exact_ratio 29 80 /\
  In (UI (Metric (lit "Compression Ratio") (lit "63.7%")))
     (snd (@render_results seeded (counted 80) (counted 29) (lit "es:a b") loaded)) /\
  format_1f (exact_ratio 29 80) ++ lit "%" = lit "63.8%" /\
  compression_ratio 9999 10000 = Ok (11258999068425 # 1125899906842624) /\
  In (UI (Metric (lit "Compression Ratio") (lit "0.0%")))
     (snd (@render_results seeded (counted 10000) (counted 9999) (lit "es:a b")
             loaded)).
Proof.
  split; [vm_compute; reflexivity|]. split; [reflexivity|].
  split; [intros H; vm_compute in H; discriminate|].
  split; [vm_compute; tauto|]. split; [vm_compute; reflexivity|].
  split; [vm_compute; reflexivity|]. vm_compute; tauto.
Qed.

(** C1: with the translation service out of quota the request passes
    validation and makes two calls, not five. *)
Lemma translator_failure_stops_pipeline :
  negb (truthy (strip fox)) = false /\
  filter is_adapter_call
    (snd (@summarize_button seeded (Some tt) fox 30 60 (lit "es")
            (@fresh seeded translator_down)))
  = [Call (Cget_text_metrics fox); Call (Ctranslate_text fox (lit "en"))] /\
  ~ exists en result,
      filter is_adapter_call
        (snd (@summarize_button seeded (Some tt) fox 30 60 (lit "es")
                (@fresh seeded translator_down)))
      = five_calls fox 30 60 (lit "es") en result.
Proof.
  split; [reflexivity|]. split; [vm_compute; reflexivity|].
  intros (en & result & H). vm_compute in H. discriminate H.
Qed.

(** C1 on the four-word text with every service available: the five
    calls, the last one on the untranslated summary text. *)
Lemma pipeline_call_order_witness :
  negb (truthy (strip fox)) = false /\
  filter is_adapter_call
    (snd (@summarize_button seeded (Some tt) fox 30 60 (lit "es")
            (@fresh seeded online)))
  = five_calls fox 30 60 (lit "es")
      (lit "en:the quick brown fox") (lit "en:the quick") /\
  exists rc en result rest,
    pipeline_run fox 30 60 (lit "es") rc
      (filter is_adapter_event
         (snd (@summarize_button seeded (Some tt) fox 30 60 (lit "es")
                 (@fresh seeded online)))) /\
    five_calls fox 30 60 (lit "es") en result
    = filter is_adapter_call
        (snd (@summarize_button seeded (Some tt) fox 30 60 (lit "es")
                (@fresh seeded online)))
      ++ rest /\
    ((forall e, rc <> Raise e) -> rest = []).
Proof.
  assert (H : negb (truthy (strip fox)) = false) by reflexivity.
  split; [exact H|]. split; [vm_compute; reflexivity|].
  exact (@pipeline_call_order seeded tt fox 30 60 (lit "es")
           (@fresh seeded online) H).
Defined.

(** C3 with the translation service out of quota: the first translation
    raises, and what follows is the report of that exception. *)
Lemma adapter_exception_caught_witness :
  negb (truthy (strip fox)) = false /\
  snd (@summarize_button seeded (Some tt) fox 30 60 (lit "es")
         (@fresh seeded translator_down))
  = [UI (Spinner (lit "Analyzing and summarizing..."));
     Call (Cget_text_metrics fox); Return (Vmetrics fox_metrics)]
    ++ Call (Ctranslate_text fox (lit "en")) :: Raised quota_exceeded
    :: failure_report quota_exceeded /\
  fst (fst (@summarize_button seeded (Some tt) fox 30 60 (lit "es")
              (@fresh seeded translator_down))) = Ok tt /\
  failure_report quota_exceeded = failure_report quota_exceeded /\
  filter is_adapter_call (failure_report quota_exceeded) = [].
Proof.
  assert (H : negb (truthy (strip fox)) = false) by reflexivity.
  assert (E :
    snd (@summarize_button seeded (Some tt) fox 30 60 (lit "es")
           (@fresh seeded translator_down))
    = [UI (Spinner (lit "Analyzing and summarizing..."));
       Call (Cget_text_metrics fox); Return (Vmetrics fox_metrics)]
      ++ Call (Ctranslate_text fox (lit "en")) :: Raised quota_exceeded
      :: failure_report quota_exceeded)
    by (vm_compute; reflexivity).
  split; [exact H|]. split; [exact E|].
  exact (@adapter_exception_caught seeded tt fox 30 60 (lit "es")
           (@fresh seeded translator_down) _ _ _ _ H E).
Defined.

(** C10 with the translation service out of quota: the output is the
    spinner and the report. *)
Lemma results_rendered_after_calls_witness :
  negb (truthy (strip fox)) = false /\
  In (Raised quota_exceeded)
     (snd (@summarize_button seeded (Some tt) fox 30 60 (lit "es")
             (@fresh seeded translator_down))) /\
  filter is_ui
     (snd (@summarize_button seeded (Some tt) fox 30 60 (lit "es")
             (@fresh seeded translator_down)))
  = UI (Spinner (lit "Analyzing and summarizing...")) :: failure_report quota_exceeded.
Proof.
  assert (H : negb (truthy (strip fox)) = false) by reflexivity.
  assert (Hin :
    In (Raised quota_exceeded)
       (snd (@summarize_button seeded (Some tt) fox 30 60 (lit "es")
               (@fresh seeded translator_down))))
    by (vm_compute; tauto).
  split; [exact H|]. split; [exact Hin|].
  exact (proj2 (@results_rendered_after_calls seeded tt fox 30 60 (lit "es")
                  (@fresh seeded translator_down) H) _ Hin).
Defined.

(** C8 with the model hub out of reach: three runs, the button pressed
    in the last two. *)
Lemma model_load_failure_is_fatal_witness :
  fst (fst (@load_summarizer_body seeded (@fresh seeded offline))) = Ok None /\
  List.length
    (filter is_load
       (List.concat
          (snd (@process seeded
                  [manual fox false; manual fox true; manual (lit "a b") true]
                  (@fresh seeded offline)))))
  = 1%nat /\
  Forall2
    (fun w evs =>
       filter is_adapter_event evs = [] /\
       (w_button w = true ->
        forall s0 t,
          fst (fst (@acquire_text seeded w s0)) = Ok t -> ~ blank t ->
          exists pre, evs = pre ++ [model_failed_message]))
    [manual fox false; manual fox true; manual (lit "a b") true]
    (snd (@process seeded
            [manual fox false; manual fox true; manual (lit "a b") true]
            (@fresh seeded offline))).
Proof.
  assert (H : fst (fst (@load_summarizer_body seeded (@fresh seeded offline)))
              = Ok None) by reflexivity.
  split; [exact H|].
  exact (@model_load_failure_is_fatal seeded offline (manual fox false)
           [manual fox true; manual (lit "a b") true] H).
Defined.

(** C4 on a Word document of three paragraphs. *)
Lemma read_file_dispatch_witness :
  file_type three_paragraphs
  = lit "application/vnd.openxmlformats-officedocument.wordprocessingml.document" /\
  @docx_Document seeded (file_data three_paragraphs)
  = Ok [lit "one"; lit "two"; lit "three"] /\
  @read_file seeded three_paragraphs
  = Ok (lit "one" ++ [10%N] ++ lit "two" ++ [10%N] ++ lit "three").
Proof.
  split; [reflexivity|]. split; [reflexivity|].
  exact (proj1 (proj2 (proj2 (@read_file_dispatch seeded three_paragraphs)))
           eq_refl [lit "one"; lit "two"; lit "three"] eq_refl).
Defined.

(** ** Further runs *)

Example split_skips_whitespace :
  split (lit "  ab   cd e ") = [lit "ab"; lit "cd"; lit "e"] /\
  split ([160; 8195] ++ lit "x" ++ [12288])%N = [lit "x"] /\
  split (lit "   ") = [].
Proof. repeat split. Qed.

Example strip_keeps_inner_whitespace :
  strip (lit "  a b  ") = lit "a b".
Proof. reflexivity. Qed.

Example join_three (a b c : text) :
  join [10%N] [a; b; c] = a ++ [10%N] ++ b ++ [10%N] ++ c.
Proof. reflexivity. Qed.

Example utf8_decode_examples :
  utf8_decode [104; 195; 169; 240; 159; 147; 138]%N = Ok [104; 233; 128202]%N /\
  utf8_decode [255]%N = Raise UnicodeDecodeError /\
  utf8_decode [192; 128]%N = Raise UnicodeDecodeError /\
  utf8_decode [237; 160; 128]%N = Raise UnicodeDecodeError.
Proof. repeat split. Qed.

Example b64encode_examples :
  b64encode (lit "Man") = lit "TWFu" /\
  b64encode (lit "Ma") = lit "TWE=" /\
  b64encode (lit "M") = lit "TQ==".
Proof. repeat split. Qed.

(** A PDF of two pages, and a type the script does not know. *)
Example read_file_other_types :
  @read_file seeded
    {| file_type := lit "application/pdf";
       file_data := lit "first page" ++ [10%N] ++ lit "second page" |}
  = Ok (lit "first page" ++ [10%N] ++ lit "second page") /\
  @read_file seeded {| file_type := lit "image/png"; file_data := [137; 80]%N |}
  = Ok [] /\
  @read_file seeded {| file_type := lit "text/plain"; file_data := [255]%N |}
  = Raise UnicodeDecodeError.
Proof. repeat split. Qed.

(** A blank text area and a pressed button, on a fresh process: the
    model is loaded, the title and the warning are shown, no adapter is
    called. *)
Example blank_request_end_to_end :
  snd (@script seeded (manual (lit "   ") true) (@fresh seeded online))
  = [LoadModel;
     UI (Title (128221%N :: lit "TinyTalk- Your Text summarizer and Translator"));
     empty_input_message].
Proof. reflexivity. Qed.

(** An unsupported upload counts as empty input. *)
Example unsupported_upload_end_to_end :
  snd (@script seeded
         {| w_input_mode := UploadDocument; w_text_area := [];
            w_file_uploader :=
              Some {| file_type := lit "image/png"; file_data := [137; 80]%N |};
            w_min_len := 30; w_max_len := 60; w_target_lang := lit "en";
            w_button := true |}
         (@fresh seeded online))
  = [LoadModel;
     UI (Title (128221%N :: lit "TinyTalk- Your Text summarizer and Translator"));
     UI (Success (lit "Document loaded successfully!"));
     empty_input_message].
Proof. reflexivity. Qed.

(** The second translation fails once the first one has used up the
    quota: four calls are made, the summarizer's result is dropped and
    only the report is shown. *)
Example second_translation_fails :
  filter is_adapter_call
    (snd (@summarize_button seeded (Some tt) fox 30 60 (lit "es")
            (@fresh seeded one_translation_left)))
  = [Call (Cget_text_metrics fox);
     Call (Ctranslate_text fox (lit "en"));
     Call (Csummarizer (lit "en:the quick brown fox") 60 30 false);
     Call (Ctranslate_text (lit "en:the quick") (lit "es"))] /\
  filter is_ui
    (snd (@summarize_button seeded (Some tt) fox 30 60 (lit "es")
            (@fresh seeded one_translation_left)))
  = UI (Spinner (lit "Analyzing and summarizing...")) :: failure_report quota_exceeded.
Proof. split; vm_compute; reflexivity. Qed.

(** The summarizer refuses crossed bounds: three calls, then the report. *)
Example summarizer_fails :
  filter is_adapter_call
    (snd (@summarize_button seeded (Some tt) fox 60 30 (lit "es")
            (@fresh seeded online)))
  = [Call (Cget_text_metrics fox);
     Call (Ctranslate_text fox (lit "en"));
     Call (Csummarizer (lit "en:the quick brown fox") 30 60 false)] /\
  filter is_ui
    (snd (@summarize_button seeded (Some tt) fox 60 30 (lit "es")
            (@fresh seeded online)))
  = UI (Spinner (lit "Analyzing and summarizing..."))
    :: failure_report (Exn "ValueError" (lit "min_length exceeds max_length")).
Proof. split; vm_compute; reflexivity. Qed.

(** A complete request shows, among the rest, the ratio 50.0% and the
    translated summary. *)
Example complete_request_output :
  In (UI (Metric (lit "Compression Ratio") (lit "50.0%")))
     (snd (@summarize_button seeded (Some tt) fox 30 60 (lit "es")
             (@fresh seeded online))) /\
  In (UI (Write (lit "es:en:the quick")))
     (snd (@summarize_button seeded (Some tt) fox 30 60 (lit "es")
             (@fresh seeded online))).
Proof. split; vm_compute; tauto. Qed.

(** The floats the interpreter computes for (1 - (s / o)) * 100, as the
    ratios of integers that denote them: 50.0, 66.66666666666667,
    63.74999999999999, 61.25000000000001, 0.009999999999998899, 0.0,
    -133.33333333333334 and 100.0. *)
Example compression_ratio_values :
  compression_ratio 2 4 = Ok 50 /\
  compression_ratio 2 6 = Ok (4691249611844267 # 70368744177664) /\
  compression_ratio 29 80 = Ok (8972014882652159 # 140737488355328) /\
  compression_ratio 31 80 = Ok (8620171161763841 # 140737488355328) /\
  compression_ratio 9999 10000 = Ok (11258999068425 # 1125899906842624) /\
  compression_ratio 5 5 = Ok 0 /\
  compression_ratio 7 3 = Ok (-4691249611844267 # 35184372088832) /\
  compression_ratio 0 9 = Ok 100 /\
  compression_ratio 3 0 = Raise ZeroDivisionError.
Proof. repeat split; vm_compute; reflexivity. Qed.

(** On the same word counts the Standard Library's IEEE 754 operations
    give the same floats. *)
Example compression_ratio_agrees_with_SpecFloat :
  Forall (fun so : nat * nat =>
            compression_ratio (fst so) (snd so)
            = match Q_of_SF (SF_ratio (Z.of_nat (fst so)) (Z.of_nat (snd so))) with
              | Some q => Ok q
              | None => Raise ZeroDivisionError
              end)
    [(2, 4); (2, 6); (29, 80); (31, 80); (9999, 10000); (5, 5); (7, 3);
     (0, 9); (1, 3); (77, 80); (1234, 4321)]%nat.
Proof. repeat (constructor; [vm_compute; reflexivity|]). constructor. Qed.

(** What [.1f] prints: ties of the exact value go to the even digit
    (0.25, 0.75, -5.25), other floats to the nearest tenth (0.35 is a
    float below 0.35, 99.95 one above), and a negative float that rounds
    to zero keeps its sign. *)
Example format_1f_values :
  format_1f (1 # 4) = lit "0.2" /\
  format_1f (3 # 4) = lit "0.8" /\
  format_1f (-21 # 4) = lit "-5.2" /\
  format_1f (3152519739159347 # 9007199254740992) = lit "0.3" /\
  format_1f (7033355980557517 # 70368744177664) = lit "100.0" /\
  format_1f (-5764607523034235 # 144115188075855872) = lit "-0.0" /\
  format_1f (3638064073985229 # 17592186044416) = lit "206.8" /\
  format_1f (-4691249611844267 # 35184372088832) = lit "-133.3" /\
  format_1f 0 = lit "0.0".
Proof. repeat split; vm_compute; reflexivity. Qed.

(** ** More about [strip] and [split] *)

Section MoreTextFacts.

Lemma lstrip_decomposition (t : text) :
  exists ws, t = ws ++ lstrip t /\ blank ws.
Proof.
  induction t as [|c t (ws & E & Hb)]; simpl.
  - exists []. split; [reflexivity | apply blank_nil].
  - destruct (is_space c) eqn:Hc.
    + exists (c :: ws). split; [simpl; congruence|].
      apply blank_cons; split; assumption.
    + exists []. split; [reflexivity | apply blank_nil].
Qed.

Lemma rstrip_decomposition (t : text) :
  exists ws, t = rstrip t ++ ws /\ blank ws.
Proof.
  destruct (lstrip_decomposition (rev t)) as (ws & E & Hb).
  exists (rev ws). split; [|apply blank_rev; exact Hb].
  unfold rstrip. rewrite <- rev_app_distr, <- E, rev_involutive. reflexivity.
Qed.

Lemma lstrip_fixed (t : text) : starts_word t = true -> lstrip t = t.
Proof.
  destruct t as [|c t]; simpl; [discriminate|].
  destruct (is_space c); [discriminate | reflexivity].
Qed.

(** Whitespace at the end of the text changes nothing for the scanner. *)
Lemma split_scan_trailing_blank (cur : option text) (t ws : text) :
  blank ws -> split_scan cur (t ++ ws) = split_scan cur t.
Proof.
  intros Hb. revert cur. induction t as [|c t IH]; intros cur.
  - simpl. revert cur. induction ws as [|x ws IHw]; intros cur; [reflexivity|].
    apply blank_cons in Hb. destruct Hb as [Hx Hb]. simpl. rewrite Hx.
    destruct cur as [w|].
    + rewrite (IHw Hb None). reflexivity.
    + apply (IHw Hb None).
  - simpl. destruct (is_space c); destruct cur as [w|]; rewrite IH; reflexivity.
Qed.

(** Whitespace between two texts ends the run being collected. *)
Lemma split_scan_gap (cur : option text) (a b : text) (c : char) :
  is_space c = true ->
  split_scan cur (a ++ c :: b) = split_scan cur a ++ split_scan None b.
Proof.
  intros Hc. revert cur. induction a as [|x a IH]; intros cur.
  - simpl. rewrite Hc. destruct cur; reflexivity.
  - simpl. destruct (is_space x); destruct cur as [w|]; rewrite IH; reflexivity.
Qed.

Lemma split_scan_leading_blank (ws t : text) :
  blank ws -> split_scan None (ws ++ t) = split_scan None t.
Proof.
  induction ws as [|x ws IH]; intros Hb; [reflexivity|].
  apply blank_cons in Hb. destruct Hb as [Hx Hb]. simpl. rewrite Hx. auto.
Qed.

(** A run of non-whitespace characters is collected whole. *)
Lemma split_scan_word (w p : text) :
  Forall (fun c => is_space c = false) p ->
  split_scan (Some w) p = [rev w ++ p].
Proof.
  intros Hp. revert w. induction Hp as [|x p Hx _ IH]; intros w.
  - simpl. rewrite app_nil_r. reflexivity.
  - simpl. rewrite Hx, IH. simpl. rewrite <- app_assoc. reflexivity.
Qed.

Lemma split_word (p : text) :
  p <> [] -> Forall (fun c => is_space c = false) p -> split p = [p].
Proof.
  intros Hne Hp. destruct p as [|x p]; [contradiction|].
  inversion Hp as [|? ? Hx Hp']; subst.
  unfold split. simpl. rewrite Hx. apply (split_scan_word [x] Hp').
Qed.

Lemma split_join_tokens (ws : list text) :
  Forall (fun w => w <> [] /\ Forall (fun c => is_space c = false) w) ws ->
  split (join [32%N] ws) = ws.
Proof.
  induction 1 as [|p ws [Hne Hp] Hws IH]; [reflexivity|].
  destruct ws as [|p' ws'].
  - simpl. apply split_word; assumption.
  - change (join [32%N] (p :: p' :: ws'))
      with (p ++ 32%N :: join [32%N] (p' :: ws')).
    unfold split in *. rewrite split_scan_gap by reflexivity.
    rewrite IH. fold (split p). rewrite split_word by assumption. reflexivity.
Qed.

(** X1.  Every token that [split()] returns is non-empty and free of
    whitespace, and the tokens put together are the text with its
    whitespace removed: no character is lost, added or reordered. *)
Theorem split_tokens (t : text) :
  Forall (fun w => w <> [] /\ Forall (fun c => is_space c = false) w) (split t) /\
  List.concat (split t) = filter (fun c => negb (is_space c)) t.
Proof.
  rewrite split_is_split_on_whitespace. split.
  - apply split_on_whitespace_tokens.
  - apply split_on_whitespace_concat.
Qed.

(** X2.  Texts separated by at least one whitespace character are split
    independently: the tokens of [a ++ ws ++ b] are those of [a] followed
    by those of [b], so the word counts add up. *)
Theorem split_around_whitespace (a ws b : text) :
  ws <> [] -> blank ws ->
  split (a ++ ws ++ b) = split a ++ split b /\
  List.length (split (a ++ ws ++ b))
  = (List.length (split a) + List.length (split b))%nat.
Proof.
  intros Hne Hb. destruct ws as [|c ws]; [contradiction|].
  apply blank_cons in Hb. destruct Hb as [Hc Hb].
  assert (E : split (a ++ (c :: ws) ++ b) = split a ++ split b).
  { unfold split. simpl. rewrite split_scan_gap by exact Hc.
    rewrite split_scan_leading_blank by exact Hb. reflexivity. }
  split; [exact E|]. rewrite E. apply length_app.
Qed.

(** X3.  Joining the tokens of a text with single spaces and splitting
    again gives the same tokens. *)
Theorem split_join_round_trip (t : text) :
  split (join [32%N] (split t)) = split t.
Proof.
  apply split_join_tokens. rewrite split_is_split_on_whitespace.
  apply split_on_whitespace_tokens.
Qed.

(** X4.  [strip()] removes whitespace from both ends and nothing else:
    the text is blank prefix, stripped text, blank suffix; the stripped
    text is empty or begins and ends with a non-whitespace character;
    and stripping again changes nothing. *)
Theorem strip_removes_surrounding_whitespace (t : text) :
  (exists a b, t = a ++ strip t ++ b /\ blank a /\ blank b) /\
  (strip t = [] \/
   (starts_word (strip t) = true /\ starts_word (rev (strip t)) = true)) /\
  strip (strip t) = strip t.
Proof.
  destruct (lstrip_decomposition t) as (a & Ea & Ha).
  destruct (rstrip_decomposition (lstrip t)) as (b & Eb & Hb).
  assert (Hshape : strip t = [] \/
            (starts_word (strip t) = true /\ starts_word (rev (strip t)) = true)).
  { unfold strip in *. unfold rstrip at 1 3.
    destruct (lstrip_shape (rev (lstrip t))) as [Hn | Hw].
    - left. unfold rstrip. rewrite Hn. reflexivity.
    - right. rewrite rev_involutive. split; [|exact Hw].
      destruct (lstrip_shape t) as [Hn' | Hw'].
      + rewrite Hn' in Hw. discriminate.
      + fold (rstrip (lstrip t)).
        destruct (rstrip (lstrip t)) as [|y r] eqn:Er.
        * simpl in Eb. rewrite <- Eb in Hb.
          destruct (lstrip t) as [|x u]; [discriminate|].
          apply blank_cons in Hb. destruct Hb as [Hx _].
          simpl in Hw'. rewrite Hx in Hw'. discriminate.
        * rewrite Eb in Hw'. exact Hw'. }
  split; [|split; [exact Hshape|]].
  - exists a, b. unfold strip. rewrite <- Eb. auto.
  - destruct Hshape as [Hn | [Hf Hl]].
    + rewrite Hn. reflexivity.
    + unfold strip at 1. rewrite (lstrip_fixed _ Hf).
      unfold rstrip. rewrite (lstrip_fixed _ Hl). apply rev_involutive.
Qed.

(** X5.  Stripping does not change the tokens: the validation at the
    button and the word count see the same words. *)
Theorem split_ignores_surrounding_whitespace (t : text) :
  split (strip t) = split t.
Proof.
  destruct (lstrip_decomposition t) as (a & Ea & Ha).
  destruct (rstrip_decomposition (lstrip t)) as (b & Eb & Hb).
  unfold strip, split.
  rewrite Ea at 2. rewrite split_scan_leading_blank by exact Ha.
  rewrite Eb at 2. rewrite split_scan_trailing_blank by exact Hb.
  reflexivity.
Qed.

End MoreTextFacts.

(** ** More about the encodings *)

Section MoreEncodingFacts.
Local Open Scope N_scope.

Ltac decide_tests :=
  repeat match goal with
         | |- context [N.ltb ?a ?b] =>
             first [ rewrite (proj2 (N.ltb_lt a b)) by lia
                   | rewrite (proj2 (N.ltb_ge a b)) by lia ]
         | |- context [N.leb ?a ?b] =>
             first [ rewrite (proj2 (N.leb_le a b)) by lia
                   | rewrite (proj2 (N.leb_gt a b)) by lia ]
         end.

Ltac case_tests H :=
  repeat match type of H with
         | context [N.ltb ?a ?b] => destruct (N.ltb_spec a b)
         | context [N.leb ?a ?b] => destruct (N.leb_spec a b)
         end.

Lemma cons_ok_inv (c : char) (r : res text) (t : text) :
  match r with Ok t' => Ok (c :: t') | Raise e => Raise e end = Ok t ->
  exists t', r = Ok t' /\ t = c :: t'.
Proof.
  destruct r as [t'|e]; [|discriminate].
  intros H. apply Ok_inj in H. exists t'. auto.
Qed.

Lemma utf8_encode_cons (c : char) (t : text) (u r : bytes) :
  utf8_encode t = Ok r ->
  (if c <? 128 then Some [c]
   else if c <? 2048 then Some [192 + c / 64; 128 + c mod 64]
   else if c <? 65536 then
     if is_surrogate c then None
     else Some [224 + c / 4096; 128 + (c / 64) mod 64; 128 + c mod 64]
   else if c <=? 1114111 then
     Some [240 + c / 262144; 128 + (c / 4096) mod 64;
           128 + (c / 64) mod 64; 128 + c mod 64]
   else None) = Some u ->
  utf8_encode (c :: t) = Ok (u ++ r).
Proof.
  intros Ht Hu. cbn [utf8_encode]. rewrite Ht.
  assert (G : forall o : option bytes,
             o = Some u ->
             match o with
             | Some u0 => Ok (u0 ++ r)
             | None => Raise UnicodeEncodeError
             end = Ok (u ++ r)) by (intros o ->; reflexivity).
  apply G. exact Hu.
Qed.

Lemma utf8_decode_canonical_bounded (n : nat) (b : bytes) (t : text) :
  (List.length b <= n)%nat ->
  utf8_decode b = Ok t ->
  utf8_encode t = Ok b /\ Forall (fun c => is_scalar c = true) t.
Proof.
  revert b t. induction n as [|n IH]; intros b t Hn H.
  - destruct b; [|simpl in Hn; lia].
    apply Ok_inj in H. subst t. split; [reflexivity | constructor].
  - destruct b as [|b0 r0].
    { apply Ok_inj in H. subst t. split; [reflexivity | constructor]. }
    cbn [utf8_decode] in H. simpl in Hn.
    destruct (N.ltb_spec b0 128) as [H0|H0].
    { apply cons_ok_inv in H. destruct H as (t' & Hr & ->).
      destruct (IH r0 t' ltac:(lia) Hr) as [He Hs].
      split.
      - apply (@utf8_encode_cons b0 _ [b0] _ He).
        rewrite (proj2 (N.ltb_lt b0 128) H0). reflexivity.
      - constructor; [|exact Hs]. unfold is_scalar, is_surrogate.
        decide_tests. reflexivity. }
    destruct (N.leb_spec 194 b0) as [H1|H1]; cbn [andb] in H.
    2:{ case_tests H; cbn [andb] in H; try discriminate; lia. }
    destruct (N.leb_spec b0 223) as [H2|H2]; cbn [andb] in H.
    { destruct r0 as [|b1 r1]; [discriminate|].
      unfold is_cont in H.
      destruct (N.leb_spec 128 b1) as [H3|H3]; cbn [andb] in H; [|discriminate].
      destruct (N.leb_spec b1 191) as [H4|H4]; [|discriminate].
      apply cons_ok_inv in H. destruct H as (t' & Hr & ->).
      simpl in Hn.
      destruct (IH r1 t' ltac:(lia) Hr) as [He Hs].
      set (c := (b0 - 192) * 64 + (b1 - 128)) in *.
      assert (Hc : c = (b0 - 192) * 64 + (b1 - 128)) by reflexivity.
      clearbody c.
      destruct (six_bits c) as [E M].
      split.
      - apply (@utf8_encode_cons c _ [b0; b1] _ He).
        set (q := c / 64) in *. set (m := c mod 64) in *. clearbody q m.
        decide_tests. f_equal. f_equal; [lia|]. f_equal. lia.
      - constructor; [|exact Hs]. unfold is_scalar, is_surrogate.
        decide_tests. reflexivity. }
    destruct (N.leb_spec 224 b0) as [H3|H3]; cbn [andb] in H; [|lia].
    destruct (N.leb_spec b0 239) as [H4|H4]; cbn [andb] in H.
    { destruct r0 as [|b1 [|b2 r2]]; try discriminate.
      unfold is_cont in H.
      destruct (N.leb_spec 128 b1); cbn [andb] in H; [|discriminate].
      destruct (N.leb_spec b1 191); cbn [andb] in H; [|discriminate].
      destruct (N.leb_spec 128 b2); cbn [andb] in H; [|discriminate].
      destruct (N.leb_spec b2 191); cbn [andb] in H; [|discriminate].
      set (c := (b0 - 224) * 4096 + (b1 - 128) * 64 + (b2 - 128)) in *.
      assert (Hc : c = (b0 - 224) * 4096 + (b1 - 128) * 64 + (b2 - 128))
        by reflexivity.
      clearbody c.
      destruct (N.leb_spec 2048 c); cbn [andb] in H; [|discriminate].
      destruct (is_surrogate c) eqn:Hsur; cbn [negb] in H; [discriminate|].
      apply cons_ok_inv in H. destruct H as (t' & Hr & ->).
      simpl in Hn.
      destruct (IH r2 t' ltac:(lia) Hr) as [He Hs].
      destruct (six_bits c) as [E M]. destruct (six_bits (c / 64)) as [E' M'].
      split.
      - apply (@utf8_encode_cons c _ [b0; b1; b2] _ He).
        rewrite Hsur.
        replace (c / 4096) with (c / 64 / 64)
          by (rewrite N.Div0.div_div; reflexivity).
        set (q := c / 64) in *. set (m := c mod 64) in *.
        set (q' := q / 64) in *. set (m' := q mod 64) in *.
        clearbody q m q' m'.
        decide_tests. f_equal. f_equal; [lia|]. f_equal; [lia|]. f_equal. lia.
      - constructor; [|exact Hs]. unfold is_scalar. rewrite Hsur.
        decide_tests. reflexivity. }
    destruct (N.leb_spec 240 b0) as [H5|H5]; cbn [andb] in H; [|lia].
    destruct (N.leb_spec b0 244) as [H6|H6]; cbn [andb] in H; [|discriminate].
    destruct r0 as [|b1 [|b2 [|b3 r3]]]; try discriminate.
    unfold is_cont in H.
    destruct (N.leb_spec 128 b1); cbn [andb] in H; [|discriminate].
    destruct (N.leb_spec b1 191); cbn [andb] in H; [|discriminate].
    destruct (N.leb_spec 128 b2); cbn [andb] in H; [|discriminate].
    destruct (N.leb_spec b2 191); cbn [andb] in H; [|discriminate].
    destruct (N.leb_spec 128 b3); cbn [andb] in H; [|discriminate].
    destruct (N.leb_spec b3 191); cbn [andb] in H; [|discriminate].
    set (c := (b0 - 240) * 262144 + (b1 - 128) * 4096
              + (b2 - 128) * 64 + (b3 - 128)) in *.
    assert (Hc : c = (b0 - 240) * 262144 + (b1 - 128) * 4096
                     + (b2 - 128) * 64 + (b3 - 128)) by reflexivity.
    clearbody c.
    destruct (N.leb_spec 65536 c); cbn [andb] in H; [|discriminate].
    destruct (N.leb_spec c 1114111); [|discriminate].
    apply cons_ok_inv in H. destruct H as (t' & Hr & ->).
    simpl in Hn.
    destruct (IH r3 t' ltac:(lia) Hr) as [He Hs].
    destruct (six_bits c) as [E M]. destruct (six_bits (c / 64)) as [E' M'].
    destruct (six_bits (c / 64 / 64)) as [E'' M''].
    split.
    + apply (@utf8_encode_cons c _ [b0; b1; b2; b3] _ He).
      replace (c / 262144) with (c / 64 / 64 / 64)
        by (rewrite !N.Div0.div_div; reflexivity).
      replace (c / 4096) with (c / 64 / 64)
        by (rewrite N.Div0.div_div; reflexivity).
      set (q := c / 64) in *. set (m := c mod 64) in *.
      set (q' := q / 64) in *. set (m' := q mod 64) in *.
      set (q'' := q' / 64) in *. set (m'' := q' mod 64) in *.
      clearbody q m q' m' q'' m''.
      decide_tests. f_equal. f_equal; [lia|]. f_equal; [lia|].
      f_equal; [lia|]. f_equal. lia.
    + constructor; [|exact Hs]. unfold is_scalar, is_surrogate.
      decide_tests. reflexivity.
Qed.


(** Which strings can be encoded. *)
Lemma utf8_encode_outcome (t : text) :
  (Forall (fun c => is_scalar c = true) t /\ exists raw, utf8_encode t = Ok raw) \/
  (Exists (fun c => is_scalar c = false) t /\
   utf8_encode t = Raise UnicodeEncodeError).
Proof.
  induction t as [|c t IH].
  - left. split; [constructor | eexists; reflexivity].
  - cbn [utf8_encode]. unfold is_scalar in *.
    destruct IH as [[Hs (raw & ->)] | [Hx ->]].
    + destruct (N.ltb_spec c 128) as [H1|H1].
      { left. split; [|eexists; reflexivity].
        constructor; [|exact Hs]. unfold is_surrogate. decide_tests. reflexivity. }
      destruct (N.ltb_spec c 2048) as [H2|H2].
      { left. split; [|eexists; reflexivity].
        constructor; [|exact Hs]. unfold is_surrogate. decide_tests. reflexivity. }
      destruct (N.ltb_spec c 65536) as [H3|H3].
      { destruct (is_surrogate c) eqn:Hsur.
        - right. split; [|reflexivity]. apply Exists_cons_hd.
          rewrite Hsur. apply andb_false_r.
        - left. split; [|eexists; reflexivity].
          constructor; [|exact Hs]. rewrite Hsur. decide_tests. reflexivity. }
      destruct (N.leb_spec c 1114111) as [H4|H4].
      { left. split; [|eexists; reflexivity].
        constructor; [|exact Hs]. unfold is_surrogate. decide_tests. reflexivity. }
      right. split; [|reflexivity]. apply Exists_cons_hd.
      decide_tests. reflexivity.
    + right. split; [apply Exists_cons_tl; exact Hx|].
      repeat match goal with
             | |- context [if ?b then _ else _] => destruct b
             end; reflexivity.
Qed.

Lemma b64_symbol_in_alphabet (n : N) : is_b64_char (b64_symbol n) = true.
Proof.
  unfold b64_symbol, is_b64_char.
  destruct (N.ltb_spec n 26); [decide_tests; reflexivity|].
  destruct (N.ltb_spec n 52); [decide_tests; cbn; reflexivity|].
  destruct (N.ltb_spec n 62); [decide_tests; cbn; reflexivity|].
  destruct (N.eqb_spec n 62); reflexivity.
Qed.

Lemma b64encode_shape_bounded (n : nat) (b : bytes) :
  (List.length b <= n)%nat ->
  List.length (b64encode b) = (4 * ((List.length b + 2) / 3))%nat /\
  Forall (fun c => is_b64_char c = true) (b64encode b).
Proof.
  revert b. induction n as [|n IH]; intros b Hn.
  - destruct b; [split; [reflexivity | constructor] | simpl in Hn; lia].
  - destruct b as [|x [|y [|z rest]]]; cbn [b64encode].
    + split; [reflexivity | constructor].
    + split; [reflexivity|].
      repeat (constructor; [first [apply b64_symbol_in_alphabet | reflexivity]|]).
      constructor.
    + split; [reflexivity|].
      repeat (constructor; [first [apply b64_symbol_in_alphabet | reflexivity]|]).
      constructor.
    + simpl in Hn. destruct (IH rest ltac:(lia)) as [Hl Ha]. split.
      * cbn [List.length]. rewrite Hl.
        replace (S (S (S (List.length rest))) + 2)%nat
          with (List.length rest + 2 + 1 * 3)%nat by lia.
        rewrite Nat.div_add by discriminate. lia.
      * repeat (constructor; [apply b64_symbol_in_alphabet|]). exact Ha.
Qed.

End MoreEncodingFacts.

(** ** More about loading, the script and the handler *)

Section MoreRuns.

Context {L : Libraries}.

Lemma adapter_event_is_no_load (l : list event) :
  Forall (fun e => is_adapter_event e = true) l ->
  Forall (fun e => is_load e = false) l.
Proof.
  apply Forall_impl. intros [| | | |u]; simpl; intros H;
    try discriminate; reflexivity.
Qed.

(** The handler on any input: it returns normally, keeps the cache and
    loads nothing. *)
Lemma summarize_button_any (summarizer : option summarization_pipeline)
    (t : text) (min_len max_len : Z) (target_lang : text) (s : store) :
  exists s' l,
    summarize_button summarizer t min_len max_len target_lang s = (Ok tt, s', l) /\
    model_cache s' = model_cache s /\
    Forall (fun e => is_load e = false) l.
Proof.
  destruct (negb (truthy (strip t))) eqn:Hv.
  - unfold summarize_button. rewrite Hv. unfold emit.
    eexists _, _. repeat split. repeat constructor.
  - destruct summarizer as [p|].
    + destruct (summarize_button_run p t min_len max_len target_lang s Hv)
        as (rc & s' & calls & rest & E & Hrun & Hc & _ & Hui & _).
      exists s', (UI (Spinner (lit "Analyzing and summarizing...")) :: calls ++ rest).
      split; [exact E|]. split; [exact Hc|].
      constructor; [reflexivity|]. apply Forall_app. split.
      * apply adapter_event_is_no_load.
        exact (pipeline_run_adapter_events Hrun).
      * apply ui_is_no_load. exact Hui.
    + unfold summarize_button. rewrite Hv. unfold emit.
      eexists _, _. repeat split. repeat constructor.
Qed.

(** [load_summarizer] always returns, and leaves its value in the cache. *)
Lemma load_summarizer_run (s : store) :
  exists v s1 l,
    load_summarizer s = (Ok v, s1, l) /\
    model_cache s1 = Some v /\
    match model_cache s with
    | Some v0 => v = v0 /\ s1 = s /\ l = []
    | None => exists lb, l = LoadModel :: lb /\
                         Forall (fun e => is_ui e = true) lb
    end.
Proof.
  unfold load_summarizer. destruct (model_cache s) as [v0|] eqn:Ec.
  - exists v0, s, []. repeat split. exact Ec.
  - destruct (load_summarizer_body_run s) as (v & s1 & lb & Eb & _ & Hub).
    rewrite Eb. eexists _, _, _. split; [reflexivity|]. split; [reflexivity|].
    exists lb. split; [reflexivity | exact Hub].
Qed.

(** One run of the script, as far as loading is concerned. *)
Lemma script_loads (w : widgets) (s : store) :
  exists r s' l,
    script w s = (r, s', l) /\
    (exists v, model_cache s' = Some v) /\
    match model_cache s with
    | Some v0 => model_cache s' = Some v0 /\ filter is_load l = []
    | None => List.length (filter is_load l) = 1%nat
    end.
Proof.
  unfold script, bind.
  destruct (load_summarizer_run s) as (v & s1 & l1 & El & Hc1 & Hl1).
  rewrite El. unfold emit at 1.
  destruct (acquire_text_run w s1) as (ra & la & Ea & Hua & _).
  rewrite Ea.
  assert (Hrest : exists r s' l2,
            (match ra with
             | Ok a =>
                 let (p, l2) :=
                   (if w_button w
                    then summarize_button v a (w_min_len w) (w_max_len w)
                           (w_target_lang w)
                    else ret tt) s1 in
                 let (r, s2) := p in (r, s2, la ++ l2)
             | Raise e => (Raise e, s1, la)
             end) = (r, s', l2) /\
            model_cache s' = model_cache s1 /\
            Forall (fun e => is_load e = false) l2).
  { destruct ra as [t|e].
    - destruct (w_button w).
      + destruct (summarize_button_any v t (w_min_len w) (w_max_len w)
                    (w_target_lang w) s1) as (s' & l & E & Hc & Hno).
        rewrite E. eexists _, _, _. split; [reflexivity|]. split; [exact Hc|].
        apply Forall_app. split; [apply ui_is_no_load; exact Hua | exact Hno].
      + unfold ret. eexists _, _, _. split; [reflexivity|].
        split; [reflexivity|]. rewrite app_nil_r. apply ui_is_no_load, Hua.
    - eexists _, _, _. split; [reflexivity|]. split; [reflexivity|].
      apply ui_is_no_load, Hua. }
  destruct Hrest as (r & s' & l2 & E & Hc & Hno).
  rewrite E. eexists _, _, _. split; [reflexivity|].
  split; [exists v; congruence|].
  destruct (model_cache s) as [v0|].
  - destruct Hl1 as (-> & -> & ->). split; [congruence|].
    cbn [app filter is_load]. apply filter_none. exact Hno.
  - destruct Hl1 as (lb & -> & Hub).
    cbn [app filter is_load List.length]. f_equal.
    rewrite !filter_app.
    rewrite (filter_none _ (ui_is_no_load Hub)).
    cbn [filter is_load app]. rewrite (filter_none _ Hno). reflexivity.
Qed.

Lemma process_cached (ws : list widgets) (s : store)
    (v : option summarization_pipeline) :
  model_cache s = Some v ->
  model_cache (fst (process ws s)) = Some v /\
  filter is_load (List.concat (snd (process ws s))) = [].
Proof.
  revert s. induction ws as [|w ws IH]; intros s Hc; simpl.
  - split; [exact Hc | reflexivity].
  - destruct (script_loads w s) as (r & s1 & l & E & _ & H).
    rewrite Hc in H. destruct H as [Hc1 Hl]. rewrite E.
    destruct (IH s1 Hc1) as [IHc IHl].
    destruct (process ws s1) as [s2 runs]. cbn [fst snd] in *.
    split; [exact IHc|]. cbn [List.concat]. rewrite filter_app, Hl, IHl.
    reflexivity.
Qed.


(** X13.  Over the runs of a process the model is loaded at most once,
    whatever the widgets do and whether loading succeeds or not; once
    the cache holds a value, no run loads anything and the value stays
    the same for every later run. *)
Theorem model_loaded_at_most_once (ws : list widgets) (s : store) :
  (List.length (filter is_load (List.concat (snd (process ws s)))) <= 1)%nat /\
  (forall v,
     model_cache s = Some v ->
     model_cache (fst (process ws s)) = Some v /\
     filter is_load (List.concat (snd (process ws s))) = []).
Proof.
  split; [|intros v Hc; apply process_cached; exact Hc].
  destruct ws as [|w ws]; [simpl; lia|]. simpl.
  destruct (script_loads w s) as (r & s1 & l & E & (v & Hc1) & H).
  rewrite E. destruct (process_cached ws s1 Hc1) as [_ Hrest].
  destruct (process ws s1) as [s2 runs]. cbn [fst snd] in *.
  cbn [List.concat]. rewrite filter_app, Hrest, app_nil_r.
  destruct (model_cache s); [destruct H as [_ ->]; simpl; lia | lia].
Qed.

(** X17.  The button handler never raises, for any text, bounds, target
    language and state of the model: every failure ends as a message.
    It leaves the cache as it was and never loads the model. *)
Theorem handler_never_raises (summarizer : option summarization_pipeline)
    (t : text) (min_len max_len : Z) (target_lang : text) (s : store) :
  fst (fst (summarize_button summarizer t min_len max_len target_lang s)) = Ok tt /\
  model_cache
    (snd (fst (summarize_button summarizer t min_len max_len target_lang s)))
  = model_cache s /\
  filter is_load
    (snd (summarize_button summarizer t min_len max_len target_lang s)) = [].
Proof.
  destruct (summarize_button_any summarizer t min_len max_len target_lang s)
    as (s' & l & E & Hc & Hno).
  rewrite E. cbn [fst snd]. repeat split; [exact Hc|].
  apply filter_none. exact Hno.
Qed.

(** X12.  On a process that has not loaded yet, [load_summarizer] turns
    the first failing step into [None]: it shows "Error loading the
    model: " with [str(e)] and the hint, does not attempt the later
    steps, and caches [None]; when the three steps return, it caches
    the pipeline and shows nothing. *)
Theorem load_summarizer_outcomes (s : store) :
  model_cache s = None ->
  let name := lit "sshleifer/distilbart-cnn-12-6" in
  let report e :=
    [LoadModel;
     UI (Error (lit "Error loading the model: " ++ exn_str e));
     UI (Info (lit "Please make sure you have a stable internet connection and try again."))] in
  (forall e w1,
     AutoTokenizer_from_pretrained name (the_world s) = (Raise e, w1) ->
     load_summarizer s
     = (Ok None, {| the_world := w1; model_cache := Some None |}, report e)) /\
  (forall tok w1 e w2,
     AutoTokenizer_from_pretrained name (the_world s) = (Ok tok, w1) ->
     AutoModelForSeq2SeqLM_from_pretrained name w1 = (Raise e, w2) ->
     load_summarizer s
     = (Ok None, {| the_world := w2; model_cache := Some None |}, report e)) /\
  (forall tok w1 model w2 e w3,
     AutoTokenizer_from_pretrained name (the_world s) = (Ok tok, w1) ->
     AutoModelForSeq2SeqLM_from_pretrained name w1 = (Ok model, w2) ->
     pipeline (lit "summarization") model tok w2 = (Raise e, w3) ->
     load_summarizer s
     = (Ok None, {| the_world := w3; model_cache := Some None |}, report e)) /\
  (forall tok w1 model w2 p w3,
     AutoTokenizer_from_pretrained name (the_world s) = (Ok tok, w1) ->
     AutoModelForSeq2SeqLM_from_pretrained name w1 = (Ok model, w2) ->
     pipeline (lit "summarization") model tok w2 = (Ok p, w3) ->
     load_summarizer s
     = (Ok (Some p), {| the_world := w3; model_cache := Some (Some p) |},
        [LoadModel])).
Proof.
  intros Hc name report.
  unfold load_summarizer, load_summarizer_body, try_except, bind, world_call,
    emit, ret. rewrite Hc. fold name.
  repeat split.
  - intros e w1 H1. rewrite H1. reflexivity.
  - intros tok w1 e w2 H1 H2. rewrite H1. cbn [the_world]. rewrite H2.
    reflexivity.
  - intros tok w1 model w2 e w3 H1 H2 H3. rewrite H1. cbn [the_world].
    rewrite H2. cbn [the_world]. rewrite H3. reflexivity.
  - intros tok w1 model w2 p w3 H1 H2 H3. rewrite H1. cbn [the_world].
    rewrite H2. cbn [the_world]. rewrite H3. reflexivity.
Qed.

(** X14.  [get_text_metrics] evaluates its entries in order and stops at
    the first that raises: when sentence segmentation or a readability
    index raises, that exception is the outcome and the language
    detector is not consulted (the world is untouched); when only the
    detector raises, its exception is the outcome. *)
Theorem metrics_first_failure (t : text) (s : store) :
  (forall e,
     TextBlob_sentences t = Raise e ->
     get_text_metrics t s
     = (Raise e, s, [Call (Cget_text_metrics t); Raised e])) /\
  (forall sentences e,
     TextBlob_sentences t = Ok sentences ->
     flesch_reading_ease t = Raise e ->
     get_text_metrics t s
     = (Raise e, s, [Call (Cget_text_metrics t); Raised e])) /\
  (forall sentences flesch e,
     TextBlob_sentences t = Ok sentences ->
     flesch_reading_ease t = Ok flesch ->
     smog_index t = Raise e ->
     get_text_metrics t s
     = (Raise e, s, [Call (Cget_text_metrics t); Raised e])) /\
  (forall sentences flesch smog e w',
     TextBlob_sentences t = Ok sentences ->
     flesch_reading_ease t = Ok flesch ->
     smog_index t = Ok smog ->
     detect t (the_world s) = (Raise e, w') ->
     get_text_metrics t s
     = (Raise e, {| the_world := w'; model_cache := model_cache s |},
        [Call (Cget_text_metrics t); Raised e])).
Proof.
  unfold get_text_metrics, traced, bind, pure_call, world_call, ret.
  repeat split.
  - intros e H1. rewrite H1. reflexivity.
  - intros ss e H1 H2. rewrite H1, H2. reflexivity.
  - intros ss f e H1 H2 H3. rewrite H1, H2, H3. reflexivity.
  - intros ss f g e w' H1 H2 H3 H4. rewrite H1, H2, H3, H4. reflexivity.
Qed.

(** X15.  When the uploaded document cannot be read, the exception that
    [read_file] raises escapes the run: the run ends after the title,
    "Document loaded successfully!" is not shown, and the handler does
    not run even if the button is pressed. *)
Theorem upload_failure_escapes (w : widgets) (file : uploaded_file)
    (e : exn) (s s1 : store) (v : option summarization_pipeline)
    (l1 : list event) :
  w_input_mode w = UploadDocument ->
  w_file_uploader w = Some file ->
  read_file file = Raise e ->
  load_summarizer s = (Ok v, s1, l1) ->
  script w s
  = (Raise e, s1,
     l1 ++ [UI (Title (128221%N :: lit "TinyTalk- Your Text summarizer and Translator"))]).
Proof.
  intros Hm Hf Hr Hl.
  unfold script, bind. rewrite Hl. unfold emit at 1.
  unfold acquire_text, bind, pure_call. rewrite Hm, Hf, Hr. reflexivity.
Qed.

(** X16.  An uploaded file whose declared type is none of the three
    supported ones is reported as loaded and then treated as empty
    input: with the button pressed the run shows the title, "Document
    loaded successfully!" and the empty-input warning, and calls no
    adapter. *)
Theorem unsupported_upload_is_empty_input (w : widgets) (file : uploaded_file)
    (s s1 : store) (v : option summarization_pipeline) (l1 : list event) :
  w_input_mode w = UploadDocument ->
  w_file_uploader w = Some file ->
  file_type file <> lit "text/plain" ->
  file_type file <> lit "application/pdf" ->
  file_type file
  <> lit "application/vnd.openxmlformats-officedocument.wordprocessingml.document" ->
  w_button w = true ->
  load_summarizer s = (Ok v, s1, l1) ->
  script w s
  = (Ok tt, s1,
     l1 ++ [UI (Title (128221%N :: lit "TinyTalk- Your Text summarizer and Translator"));
            UI (Success (lit "Document loaded successfully!"));
            empty_input_message]).
Proof.
  intros Hm Hf H1 H2 H3 Hb Hl.
  unfold script, bind. rewrite Hl. unfold emit at 1.
  unfold acquire_text, bind, pure_call, emit, ret. rewrite Hm, Hf.
  unfold read_file. rewrite !text_eqb_neq by assumption.
  rewrite Hb. unfold summarize_button. cbn. reflexivity.
Qed.

(** X20.  A run in which the button is not pressed, in a process whose
    model is cached, shows output only and leaves the world and the
    cache untouched: no adapter is called, nothing is loaded. *)
Theorem run_without_button_is_inert (w : widgets) (s : store)
    (v : option summarization_pipeline) :
  w_button w = false ->
  model_cache s = Some v ->
  exists r l,
    script w s = (r, s, l) /\ Forall (fun e => is_ui e = true) l.
Proof.
  intros Hb Hc. unfold script, bind.
  rewrite (load_summarizer_cached s Hc). unfold emit at 1.
  destruct (acquire_text_run w s) as (ra & la & Ea & Hua & _).
  rewrite Ea, Hb. destruct ra as [t|e]; unfold ret.
  - eexists _, _. split; [reflexivity|].
    constructor; [reflexivity|]. rewrite app_nil_r. exact Hua.
  - eexists _, _. split; [reflexivity|].
    constructor; [reflexivity | exact Hua].
Qed.

End MoreRuns.

(** ** More about files, links and the ratio *)

Section MoreFiles.

Context {L : Libraries}.

Lemma map_res_first_failure (A B : Type) (f : A -> res B)
    (good : list A) (bad : A) (rest : list A) (e : exn) :
  Forall (fun x => exists y, f x = Ok y) good ->
  f bad = Raise e ->
  map_res f (good ++ bad :: rest) = Raise e.
Proof.
  intros Hg Hb. induction Hg as [|x good (y & Hy) _ IH]; simpl.
  - rewrite Hb. reflexivity.
  - rewrite Hy, IH. reflexivity.
Qed.

(** Newlines between the parts separate their words. *)
Lemma split_join_lines (parts : list text) :
  split (join [10%N] parts) = List.concat (map split parts).
Proof.
  induction parts as [|p parts IH]; [reflexivity|].
  destruct parts as [|p' parts'].
  - simpl. rewrite app_nil_r. reflexivity.
  - change (join [10%N] (p :: p' :: parts'))
      with (p ++ 10%N :: join [10%N] (p' :: parts')).
    unfold split in *. rewrite split_scan_gap by reflexivity.
    rewrite IH. reflexivity.
Qed.

(** X10.  [read_file] catches nothing: an exception raised when the PDF
    is opened, by the text extraction of a page (the first failing page
    decides, later pages are not read), when the Word document is
    opened, or by the UTF-8 decoding of a text file is the outcome of
    [read_file]. *)
Theorem read_file_errors_propagate (file : uploaded_file) (e : exn) :
  (file_type file = lit "application/pdf" ->
   fitz_open (file_data file) (lit "pdf") = Raise e ->
   read_file file = Raise e) /\
  (file_type file = lit "application/pdf" ->
   forall good bad rest,
     fitz_open (file_data file) (lit "pdf") = Ok (good ++ bad :: rest) ->
     Forall (fun page => exists x, get_text page = Ok x) good ->
     get_text bad = Raise e ->
     read_file file = Raise e) /\
  (file_type file
   = lit "application/vnd.openxmlformats-officedocument.wordprocessingml.document" ->
   docx_Document (file_data file) = Raise e ->
   read_file file = Raise e) /\
  (file_type file = lit "text/plain" ->
   utf8_decode (file_data file) = Raise e ->
   read_file file = Raise e).
Proof.
  unfold read_file. repeat split.
  - intros -> Ho. rewrite text_eqb_neq by discriminate.
    rewrite (proj2 (text_eqb_eq _ _) eq_refl). rewrite Ho. reflexivity.
  - intros -> good bad rest Ho Hg Hb. rewrite text_eqb_neq by discriminate.
    rewrite (proj2 (text_eqb_eq _ _) eq_refl). rewrite Ho.
    rewrite (@map_res_first_failure _ _ _ _ _ rest _ Hg Hb). reflexivity.
  - intros -> Ho. rewrite text_eqb_neq by discriminate.
    rewrite text_eqb_neq by discriminate.
    rewrite (proj2 (text_eqb_eq _ _) eq_refl). rewrite Ho. reflexivity.
  - intros -> Hd. rewrite (proj2 (text_eqb_eq _ _) eq_refl). exact Hd.
Qed.

(** X11.  The words of a PDF are the words of its pages, and the words
    of a Word document the words of its paragraphs: the newline that
    [read_file] puts between the parts separates words, so the word
    count that [get_text_metrics] reports for the extracted text is the
    sum over the parts. *)
Theorem document_words_are_part_words (file : uploaded_file) (t : text) :
  read_file file = Ok t ->
  (file_type file = lit "application/pdf" ->
   forall pages texts,
     fitz_open (file_data file) (lit "pdf") = Ok pages ->
     Forall2 (fun page x => get_text page = Ok x) pages texts ->
     split t = List.concat (map split texts)) /\
  (file_type file
   = lit "application/vnd.openxmlformats-officedocument.wordprocessingml.document" ->
   forall paragraphs,
     docx_Document (file_data file) = Ok paragraphs ->
     split t = List.concat (map split (map paragraph_text paragraphs))).
Proof.
  intros Hr. split.
  - intros Ht pages texts Ho Hp. revert Hr. unfold read_file. rewrite Ht.
    rewrite text_eqb_neq by discriminate.
    rewrite (proj2 (text_eqb_eq _ _) eq_refl). rewrite Ho.
    apply map_res_Forall2 in Hp. rewrite Hp.
    intros H. apply Ok_inj in H. subst t. apply split_join_lines.
  - intros Ht paragraphs Ho. revert Hr. unfold read_file. rewrite Ht.
    rewrite text_eqb_neq by discriminate.
    rewrite text_eqb_neq by discriminate.
    rewrite (proj2 (text_eqb_eq _ _) eq_refl). rewrite Ho.
    intros H. apply Ok_inj in H. subst t. apply split_join_lines.
Qed.

(** X7.  A plain-text upload that holds the UTF-8 encoding of a string
    is read back as that string. *)
Theorem text_file_round_trip (t : text) (raw : bytes) :
  utf8_encode t = Ok raw ->
  read_file {| file_type := lit "text/plain"; file_data := raw |} = Ok t.
Proof.
  intros H. unfold read_file. cbn [file_type file_data].
  rewrite (proj2 (text_eqb_eq _ _) eq_refl).
  apply utf8_decode_encode. exact H.
Qed.

End MoreFiles.

Section MoreEncodings.

(** X6.  The UTF-8 decoder accepts canonical encodings only: when it
    returns a string, encoding that string gives back the very bytes
    that were decoded, and every character of the string is a Unicode
    scalar value (at most U+10FFFF and no surrogate). *)
Theorem utf8_decode_canonical (b : bytes) (t : text) :
  utf8_decode b = Ok t ->
  utf8_encode t = Ok b /\ Forall (fun c => is_scalar c = true) t.
Proof.
  apply (@utf8_decode_canonical_bounded (List.length b) b t). apply le_n.
Qed.

(** X8.  [b64encode] turns every three octets, and a final group of one
    or two, into four characters: the output has 4 * ceil(n / 3)
    characters, all of them letters, digits, '+', '/' or the padding
    '='. *)
Theorem b64encode_shape (b : bytes) :
  List.length (b64encode b) = (4 * ((List.length b + 2) / 3))%nat /\
  Forall (fun c => is_b64_char c = true) (b64encode b).
Proof.
  apply (@b64encode_shape_bounded (List.length b) b). apply le_n.
Qed.

(** X9.  [get_download_link] returns the anchor element around the
    base64 form of the UTF-8 encoding of the text exactly when the text
    holds Unicode scalar values only; a text with a surrogate (or a
    value above U+10FFFF) makes it raise UnicodeEncodeError. *)
Theorem get_download_link_outcome (t filename : text) :
  (Forall (fun c => is_scalar c = true) t /\
   exists raw,
     utf8_encode t = Ok raw /\
     get_download_link t filename
     = Ok (lit "<a href=" ++ [34%N] ++ lit "data:file/txt;base64,"
           ++ b64encode raw ++ [34%N] ++ lit " download=" ++ [34%N]
           ++ filename ++ [34%N] ++ lit ">" ++ [128190%N]
           ++ lit " Download Summary</a>")) \/
  (Exists (fun c => is_scalar c = false) t /\
   get_download_link t filename = Raise UnicodeEncodeError).
Proof.
  unfold get_download_link.
  destruct (utf8_encode_outcome t) as [[Hs (raw & E)] | [Hx E]]; rewrite E.
  - left. split; [exact Hs|]. exists raw. split; [reflexivity|].
    rewrite (@utf8_decode_ascii _ (b64encode_ascii raw)). reflexivity.
  - right. split; [exact Hx | reflexivity].
Qed.

(** X19.  Whenever the compression ratio is defined (the original has
    at least one word) the float computed is at most 100, and it is 100
    for a summary without words.  For an original of at most 2^53 words
    it is below 100 as soon as the summary has a word, and for an
    original of fewer than 2^53 words it is negative when the summary
    has more words than the original. *)
Theorem compression_ratio_bounds (summary_wc original_wc : nat) :
  (0 < original_wc)%nat ->
  exists q,
    compression_ratio summary_wc original_wc = Ok q /\
    q <= 100 /\
    (summary_wc = 0%nat -> q = 100) /\
    ((Z.of_nat original_wc <= 2 ^ 53)%Z -> (0 < summary_wc)%nat -> q < 100) /\
    ((Z.of_nat original_wc < 2 ^ 53)%Z -> (original_wc < summary_wc)%nat -> q < 0).
Proof.
  intros Ho. rewrite (compression_ratio_defined summary_wc Ho).
  eexists. split; [reflexivity|].
  split; [apply ratio_at_most_100; exact Ho|]. split; [|split].
  - intros ->. apply ratio_no_words; exact Ho.
  - intros Hb Hs. apply ratio_below_100; assumption.
  - intros Hb Hs. apply ratio_negative; assumption.
Qed.

End MoreEncodings.

Section CompleteRequest.

Context {L : Libraries}.

(** X18.  A request that passes validation, whose five calls return and
    whose translated summary holds Unicode scalar values only, is
    rendered in full and without any error: after the spinner and the
    calls come the two metric panels, the compression ratio, the
    translated summary, the copy area and the download link, in this
    order; the handler returns normally and rendering leaves the store
    as the calls left it. *)
Theorem complete_request_rendered
    (p : summarization_pipeline) (t : text) (min_len max_len : Z)
    (target_lang : text) (s s1 : store) (l : list event)
    (m1 m2 : metrics) (ts : text) :
  negb (truthy (strip t)) = false ->
  pipeline_calls p t min_len max_len target_lang s = (Ok (m1, m2, ts), s1, l) ->
  Forall (fun c => is_scalar c = true) ts ->
  exists q href,
    compression_ratio (word_count m2) (word_count m1) = Ok q /\
    get_download_link ts (lit "summary.txt") = Ok href /\
    summarize_button (Some p) t min_len max_len target_lang s
    = (Ok tt, s1,
       UI (Spinner (lit "Analyzing and summarizing...")) :: l ++
       [UI (Columns 2);
        UI (Subheader (128202%N :: lit " Original Text Metrics"));
        UI (Write (lit "Word Count: " ++ str_of_nat (word_count m1)));
        UI (Write (lit "Sentence Count: " ++ str_of_nat (sentence_count m1)));
        UI (Write (lit "Flesch Readability Score: " ++ format_1f (flesch_score m1)));
        UI (Write (lit "SMOG Index: " ++ format_1f (smog_score m1)));
        UI (Write (lit "Detected Language: " ++ language m1));
        UI (Subheader (128202%N :: lit " Summary Metrics"));
        UI (Write (lit "Word Count: " ++ str_of_nat (word_count m2)));
        UI (Write (lit "Sentence Count: " ++ str_of_nat (sentence_count m2)));
        UI (Write (lit "Flesch Readability Score: " ++ format_1f (flesch_score m2)));
        UI (Write (lit "SMOG Index: " ++ format_1f (smog_score m2)));
        UI (Write (lit "Detected Language: " ++ language m2));
        UI (Metric (lit "Compression Ratio") (format_1f q ++ lit "%"));
        UI (Subheader (128221%N :: lit " Summary:"));
        UI (Write ts);
        UI (Columns 2);
        UI (TextArea (lit "Copy from here:") ts 100 (lit "copy_area"));
        UI (Markdown href true);
        UI (Info (lit "Click the link above to download the summary"))]).
Proof.
  intros Hv Hc Hs.
  assert (Hpos : (0 < word_count m1)%nat).
  { destruct (pipeline_calls_run p t min_len max_len target_lang s)
      as (r & s' & l' & E & _ & _ & W).
    rewrite Hc in E. apply pair_equal_spec in E. destruct E as [E _].
    apply pair_equal_spec in E. destruct E as [E _]. symmetry in E.
    destruct r as [[[m1' m2'] ts']|e]; [|discriminate].
    apply Ok_inj in E. injection E as -> _ _.
    rewrite (W _ _ _ eq_refl). apply accepted_text_has_words; exact Hv. }
  pose proof (compression_ratio_defined (word_count m2) Hpos) as Hq.
  destruct (utf8_encode_outcome ts) as [[_ (raw & Er)] | [Hx _]].
  2:{ exfalso. apply Exists_exists in Hx. destruct Hx as (c & Hin & Hc').
      rewrite Forall_forall in Hs. rewrite (Hs c Hin) in Hc'. discriminate. }
  destruct (get_download_link_defined ts (lit "summary.txt") Er) as (href & Hl).
  eexists _, href. split; [exact Hq|]. split; [exact Hl|].
  unfold summarize_button. rewrite Hv.
  unfold try_except, report_failure, render_results.
  unfold bind, emit, pure_call. rewrite Hc, Hq, Hl. reflexivity.
Qed.

End CompleteRequest.

(** ** The further properties on concrete inputs *)

(** X2 on two sentences separated by a space and a newline. *)
Lemma split_around_whitespace_witness :
  [32; 10]%N <> [] /\ blank [32; 10]%N /\
  split (lit "the quick" ++ [32; 10]%N ++ lit "brown fox")
  = split (lit "the quick") ++ split (lit "brown fox") /\
  List.length (split (lit "the quick" ++ [32; 10]%N ++ lit "brown fox"))
  = (List.length (split (lit "the quick"))
     + List.length (split (lit "brown fox")))%nat.
Proof.
  assert (H1 : [32; 10]%N <> []) by discriminate.
  assert (H2 : blank [32; 10]%N) by (repeat constructor).
  split; [exact H1|]. split; [exact H2|].
  exact (@split_around_whitespace (lit "the quick") [32; 10]%N
           (lit "brown fox") H1 H2).
Defined.

(** X6 on the encoding of an ASCII letter, a two-octet letter and a
    four-octet symbol. *)
Lemma utf8_decode_canonical_witness :
  utf8_decode [104; 195; 169; 240; 159; 147; 138]%N = Ok [104; 233; 128202]%N /\
  utf8_encode [104; 233; 128202]%N = Ok [104; 195; 169; 240; 159; 147; 138]%N /\
  Forall (fun c => is_scalar c = true) [104; 233; 128202]%N.
Proof.
  assert (H : utf8_decode [104; 195; 169; 240; 159; 147; 138]%N
              = Ok [104; 233; 128202]%N) by reflexivity.
  split; [exact H|].
  exact (@utf8_decode_canonical _ _ H).
Defined.

(** X7 on the same string. *)
Lemma text_file_round_trip_witness :
  utf8_encode [104; 233; 128202]%N = Ok [104; 195; 169; 240; 159; 147; 138]%N /\
  @read_file seeded
    {| file_type := lit "text/plain";
       file_data := [104; 195; 169; 240; 159; 147; 138]%N |}
  = Ok [104; 233; 128202]%N.
Proof.
  assert (H : utf8_encode [104; 233; 128202]%N
              = Ok [104; 195; 169; 240; 159; 147; 138]%N) by reflexivity.
  split; [exact H|].
  exact (@text_file_round_trip seeded _ _ H).
Defined.

(** X10 on a text file that is not UTF-8. *)
Lemma read_file_errors_propagate_witness :
  file_type broken_text_file = lit "text/plain" /\
  utf8_decode (file_data broken_text_file) = Raise UnicodeDecodeError /\
  @read_file seeded broken_text_file = Raise UnicodeDecodeError.
Proof.
  split; [reflexivity|]. split; [reflexivity|].
  exact (proj2 (proj2 (proj2
           (@read_file_errors_propagate seeded broken_text_file
              UnicodeDecodeError))) eq_refl eq_refl).
Defined.

(** X11 on the Word document of three paragraphs. *)
Lemma document_words_are_part_words_witness :
  @read_file seeded three_paragraphs
  = Ok (lit "one" ++ [10%N] ++ lit "two" ++ [10%N] ++ lit "three") /\
  split (lit "one" ++ [10%N] ++ lit "two" ++ [10%N] ++ lit "three")
  = List.concat (map split [lit "one"; lit "two"; lit "three"]).
Proof.
  assert (H : @read_file seeded three_paragraphs
              = Ok (lit "one" ++ [10%N] ++ lit "two" ++ [10%N] ++ lit "three"))
    by reflexivity.
  split; [exact H|].
  exact (proj2 (@document_words_are_part_words seeded three_paragraphs _ H)
           eq_refl [lit "one"; lit "two"; lit "three"] eq_refl).
Defined.

(** X12 with the model hub out of reach: the tokenizer cannot be
    fetched. *)
Lemma load_summarizer_outcomes_witness :
  model_cache (@fresh seeded offline) = None /\
  @load_summarizer seeded (@fresh seeded offline)
  = (Ok None, @Build_store seeded offline (Some None),
     [LoadModel;
      UI (Error (lit "Error loading the model: "
                 ++ lit "cannot reach the model hub"));
      UI (Info (lit "Please make sure you have a stable internet connection and try again."))]).
Proof.
  assert (H : model_cache (@fresh seeded offline) = None) by reflexivity.
  split; [exact H|].
  exact (proj1 (@load_summarizer_outcomes seeded (@fresh seeded offline) H)
           (Exn "OSError" (lit "cannot reach the model hub")) offline eq_refl).
Defined.

(** X13 on three runs of a process with every service available. *)
Lemma model_loaded_at_most_once_witness :
  List.length
    (filter is_load
       (List.concat
          (snd (@process seeded
                  [manual fox false; manual fox true; manual (lit "a b") true]
                  (@fresh seeded online)))))
  = 1%nat /\
  (List.length
     (filter is_load
        (List.concat
           (snd (@process seeded
                   [manual fox false; manual fox true; manual (lit "a b") true]
                   (@fresh seeded online)))))
   <= 1)%nat.
Proof.
  split; [vm_compute; reflexivity|].
  exact (proj1 (@model_loaded_at_most_once seeded
                  [manual fox false; manual fox true; manual (lit "a b") true]
                  (@fresh seeded online))).
Defined.

(** X14 on a text in which the detector finds no features. *)
Lemma metrics_first_failure_witness :
  @detect seeded (lit "  ") online
  = (Raise (Exn "LangDetectException" (lit "No features in text.")), online) /\
  @get_text_metrics seeded (lit "  ") (@fresh seeded online)
  = (Raise (Exn "LangDetectException" (lit "No features in text.")),
     @Build_store seeded online None,
     [Call (Cget_text_metrics (lit "  "));
      Raised (Exn "LangDetectException" (lit "No features in text."))]).
Proof.
  split; [reflexivity|].
  exact (proj2 (proj2 (proj2
           (@metrics_first_failure seeded (lit "  ") (@fresh seeded online))))
           [lit "  "] (2068 # 10) 0
           (Exn "LangDetectException" (lit "No features in text.")) online
           eq_refl eq_refl eq_refl eq_refl).
Defined.

(** X15 on the text file that is not UTF-8, with the button pressed. *)
Lemma upload_failure_escapes_witness :
  @read_file seeded broken_text_file = Raise UnicodeDecodeError /\
  @script seeded (upload broken_text_file true) loaded
  = (Raise UnicodeDecodeError, loaded,
     [UI (Title (128221%N :: lit "TinyTalk- Your Text summarizer and Translator"))]).
Proof.
  assert (H : @read_file seeded broken_text_file = Raise UnicodeDecodeError)
    by reflexivity.
  split; [exact H|].
  exact (@upload_failure_escapes seeded (upload broken_text_file true)
           broken_text_file UnicodeDecodeError loaded loaded (Some tt) []
           eq_refl eq_refl H eq_refl).
Defined.

(** X16 on an uploaded image, with the button pressed. *)
Lemma unsupported_upload_is_empty_input_witness :
  file_type png_file <> lit "text/plain" /\
  @script seeded (upload png_file true) loaded
  = (Ok tt, loaded,
     [UI (Title (128221%N :: lit "TinyTalk- Your Text summarizer and Translator"));
      UI (Success (lit "Document loaded successfully!"));
      empty_input_message]).
Proof.
  assert (H1 : file_type png_file <> lit "text/plain") by discriminate.
  assert (H2 : file_type png_file <> lit "application/pdf") by discriminate.
  assert (H3 : file_type png_file
               <> lit "application/vnd.openxmlformats-officedocument.wordprocessingml.document")
    by discriminate.
  split; [exact H1|].
  exact (@unsupported_upload_is_empty_input seeded (upload png_file true)
           png_file loaded loaded (Some tt) []
           eq_refl eq_refl H1 H2 H3 eq_refl eq_refl).
Defined.

(** X18 on the four-word text with every service available. *)
Lemma complete_request_rendered_witness :
  negb (truthy (strip fox)) = false /\
  exists m1 m2 ts s1 l,
    @pipeline_calls seeded tt fox 30 60 (lit "es") loaded
    = (Ok (m1, m2, ts), s1, l) /\
    ts = lit "es:en:the quick" /\
    Forall (fun c => is_scalar c = true) ts /\
    exists q href,
      compression_ratio (word_count m2) (word_count m1) = Ok q /\
      get_download_link ts (lit "summary.txt") = Ok href /\
      fst (fst (@summarize_button seeded (Some tt) fox 30 60 (lit "es") loaded))
      = Ok tt.
Proof.
  assert (H : negb (truthy (strip fox)) = false) by reflexivity.
  split; [exact H|].
  eexists _, _, _, _, _. split; [vm_compute; reflexivity|].
  split; [reflexivity|].
  assert (Hs : Forall (fun c => is_scalar c = true) (lit "es:en:the quick"))
    by (repeat constructor).
  split; [exact Hs|].
  destruct (@complete_request_rendered seeded tt fox 30 60 (lit "es") loaded
              _ _ _ _ _ H ltac:(vm_compute; reflexivity) Hs)
    as (q & href & Hq & Hl & E).
  exists q, href. split; [exact Hq|]. split; [exact Hl|].
  exact (f_equal (fun x => fst (fst x)) E).
Defined.

(** X19 on a summary of two words for an original of four. *)
Lemma compression_ratio_bounds_witness :
  (0 < 4)%nat /\
  exists q,
    compression_ratio 2 4 = Ok q /\
    q <= 100 /\
    (2%nat = 0%nat -> q = 100) /\
    ((Z.of_nat 4 <= 2 ^ 53)%Z -> (0 < 2)%nat -> q < 100) /\
    ((Z.of_nat 4 < 2 ^ 53)%Z -> (4 < 2)%nat -> q < 0).
Proof.
  assert (H : (0 < 4)%nat) by lia.
  split; [exact H|].
  exact (@compression_ratio_bounds 2 4 H).
Defined.

(** X20 on a rerun caused by typing, with the model cached. *)
Lemma run_without_button_is_inert_witness :
  w_button (manual fox false) = false /\
  model_cache loaded = Some (Some tt) /\
  exists r l,
    @script seeded (manual fox false) loaded = (r, loaded, l) /\
    Forall (fun e => is_ui e = true) l.
Proof.
  split; [reflexivity|]. split; [reflexivity|].
  exact (@run_without_button_is_inert seeded (manual fox false) loaded
           (Some tt) eq_refl eq_refl).
Defined.
